(** * proxyserve: a shallow embedding of server.js

    The gateway relays plain HTTP requests and CONNECT tunnels through a
    rotating pool of upstream proxies.  This development embeds the
    ProxyManager class, the plain-HTTP [requestHandler] and the CONNECT
    handler [serverOnConnect] / [attemptConnect] of the current server.js,
    and states the routing properties over that embedding.

    Conventions.
    - A JavaScript string is the list of its UTF-16 code units.
    - Numbers are integers: [Date.now()] readings, the TTL and
      [MAX_RETRIES] are in [Z], the attempt counter and the cursor in
      [nat].
    - [Date.now()] readings, the settlements of [axios] calls, the URL
      parser, [net.isIP] and socket events are inputs from outside.
    - A JavaScript exception is a [Throw] completion; [try]/[catch] is
      [try_catch].  An exception that leaves an event listener is not
      caught by anything in server.js.
    - [logger], [res.writeHead], [res.end], [pipe] and [socket.write] do
      not throw. *)

From Stdlib Require Import ZArith String Ascii.
From stdpp Require Import gmap list.

Local Open Scope Z_scope.

(** ** JavaScript strings and values *)

Abbreviation jsstring := (list N).

(** An ASCII literal as a JavaScript string. *)
Definition js (s : string) : jsstring :=
  map N_of_ascii (list_ascii_of_string s).

Definition LF : N := 10%N.
Definition CR : N := 13%N.
Definition COLON : N := 58%N.

Definition jsstr_eqb (a b : jsstring) : bool := bool_decide (a = b).

(** [s.split(sep)] for a one-character separator: always at least one
    field, and an empty field between two adjacent separators. *)
Fixpoint split_on (sep : N) (s : jsstring) : list jsstring :=
  match s with
  | [] => [[]]
  | c :: rest =>
      if N.eqb c sep then [] :: split_on sep rest
      else match split_on sep rest with
           | [] => [[c]]
           | f :: fs => (c :: f) :: fs
           end
  end.

(** The WhiteSpace and LineTerminator code units that
    [String.prototype.trim] strips. *)
Definition is_js_space (c : N) : bool :=
  existsb (N.eqb c)
    [9; 10; 11; 12; 13; 32; 160; 5760; 8232; 8233; 8239; 8287; 12288; 65279]%N
  || (N.leb 8192 c && N.leb c 8202).

Fixpoint drop_spaces (s : jsstring) : jsstring :=
  match s with
  | [] => []
  | c :: rest => if is_js_space c then drop_spaces rest else s
  end.

Definition trim (s : jsstring) : jsstring :=
  rev (drop_spaces (rev (drop_spaces s))).

Fixpoint starts_with (p s : jsstring) : bool :=
  match p, s with
  | [], _ => true
  | _ :: _, [] => false
  | a :: p', b :: s' => N.eqb a b && starts_with p' s'
  end.

(** [hay.indexOf(needle) !== -1]. *)
Fixpoint includes (needle hay : jsstring) : bool :=
  starts_with needle hay
  || match hay with
     | [] => false
     | _ :: hay' => includes needle hay'
     end.

(** The values a proxy variable can hold: a string, [null], or the
    [undefined] read from an array slot that does not exist. *)
Inductive jsval : Type :=
  | JNull
  | JUndefined
  | JStr (s : jsstring).

#[global] Instance jsval_eq_dec : EqDecision jsval.
Proof. solve_decision. Defined.

Definition truthy (v : jsval) : bool :=
  match v with
  | JStr [] => false
  | JStr _ => true
  | _ => false
  end.

(** [a === b] on these values. *)
Definition strict_eq (a b : jsval) : bool := bool_decide (a = b).

(** String conversion, as in a template literal or the argument of
    [new URL]. *)
Definition to_jsstring (v : jsval) : jsstring :=
  match v with
  | JNull => js "null"
  | JUndefined => js "undefined"
  | JStr s => s
  end.

(** ** Exceptions *)

Record JsError := { err_name : jsstring; err_message : jsstring; err_code : jsstring }.

Inductive completion (A : Type) : Type :=
  | Normal (a : A)
  | Throw (e : JsError).
Arguments Normal {A} a.
Arguments Throw {A} e.

#[global] Instance completion_ret : MRet completion := @Normal.

#[global] Instance completion_bind : MBind completion :=
  fun A B k c =>
    match c with
    | Normal a => k a
    | Throw e => Throw e
    end.

Definition try_catch {A} (body : completion A) (handler : JsError -> completion A)
  : completion A :=
  match body with
  | Normal a => Normal a
  | Throw e => handler e
  end.

Definition TypeError (msg : string) : JsError :=
  {| err_name := js "TypeError"; err_message := js msg; err_code := [] |}.

(** ** Configuration *)

Record Config := {
  PROXY_TYPE : jsstring;
  MAX_RETRIES : Z;
  PROXY_DOMAIN_CACHE_TTL : Z;
  DEFAULT_USER_AGENT : jsstring
}.

(** The defaults of server.js when the environment sets nothing. *)
Definition default_config : Config :=
  {| PROXY_TYPE := js "https";
     MAX_RETRIES := 5;
     PROXY_DOMAIN_CACHE_TTL := 600000;
     DEFAULT_USER_AGENT :=
       js "Mozilla/5.0 (Windows NT 10.0; Win64; x64) AppleWebKit/537.36 (KHTML, like Gecko) Chrome/115.0.0.0 Safari/537.36" |}.

(** ** ProxyManager *)

(** A [domainCache] value: [{ proxy, timestamp }]. *)
Record Mapping := { proxy : jsval; timestamp : Z }.

#[global] Instance Mapping_eq_dec : EqDecision Mapping.
Proof. solve_decision. Defined.

Record ProxyManager := {
  proxies : list jsstring;
  index : nat;
  domainCache : gmap jsstring Mapping
}.

Definition set_proxies (l : list jsstring) (pm : ProxyManager) : ProxyManager :=
  {| proxies := l; index := index pm; domainCache := domainCache pm |}.

Definition set_index (i : nat) (pm : ProxyManager) : ProxyManager :=
  {| proxies := proxies pm; index := i; domainCache := domainCache pm |}.

Definition set_domainCache (c : gmap jsstring Mapping) (pm : ProxyManager)
  : ProxyManager :=
  {| proxies := proxies pm; index := index pm; domainCache := c |}.

(** The fields the constructor sets before the first refresh. *)
Definition new_ProxyManager : ProxyManager :=
  {| proxies := []; index := 0%nat; domainCache := ∅ |}.

(** [this.proxies[this.index]]: [undefined] past the end of the array. *)
Definition array_get (l : list jsstring) (i : nat) : jsval :=
  match l !! i with
  | Some p => JStr p
  | None => JUndefined
  end.

Definition getNextProxy (pm : ProxyManager) : jsval * ProxyManager :=
  if (length (proxies pm) =? 0)%nat then (JNull, pm)
  else
    let proxy := array_get (proxies pm) (index pm) in
    (proxy, set_index ((index pm + 1) mod length (proxies pm))%nat pm).

Definition removeDomainMapping (domain : jsstring) (pm : ProxyManager)
  : ProxyManager :=
  set_domainCache (delete domain (domainCache pm)) pm.

Definition flushDomainCache (pm : ProxyManager) : ProxyManager :=
  set_domainCache ∅ pm.

Section Manager.

Variable cfg : Config.

(** [now] is the reading of [Date.now()]. *)
Definition getProxyForDomain (domain : jsstring) (now : Z) (pm : ProxyManager)
  : jsval * ProxyManager :=
  match domainCache pm !! domain with
  | Some mapping =>
      if now - timestamp mapping <? PROXY_DOMAIN_CACHE_TTL cfg
      then (proxy mapping, pm)
      else (JNull, set_domainCache (delete domain (domainCache pm)) pm)
  | None => (JNull, set_domainCache (delete domain (domainCache pm)) pm)
  end.

Definition setDomainForDomain (domain : jsstring) (p : jsval) (now : Z)
    (pm : ProxyManager) : ProxyManager :=
  set_domainCache
    (<[domain := {| proxy := p; timestamp := now |}]> (domainCache pm)) pm.

End Manager.

(** ** Log sink

    Each constructor is one [logger] call site of server.js, carrying the
    values interpolated into its message. *)

Inductive LogEvent : Type :=
  | LogFetching
  | LogUpdated (count : nat)
  | LogFetchStatus (status : Z)
  | LogFetchError (message : jsstring)
  | LogFlushed
  | LogHttpVia (proxyUrl : jsval) (attempt : nat)
  | LogHttpError (proxyUrl : jsval) (message : jsstring)
  | LogConnectVia (proxyUrl : jsval) (attempt : nat)
  | LogConnectFailed (proxyUrl : jsval) (attempt : nat) (response : jsstring)
  | LogProxySocketError (proxyUrl : jsval) (message : jsstring)
  | LogProxyPipeError (message : jsstring)
  | LogClientSocketError (message : jsstring)
  | LogClientPipeError (message : jsstring).

(** ** Proxy-list refresh *)

(** [response.data]: the body as a string, or whatever else axios decoded
    it to (a value without a [split] method). *)
Inductive ResponseData : Type :=
  | DataString (s : jsstring)
  | DataOther (is_truthy : bool).

Record AxiosResponse := { status : Z; data : ResponseData }.

Definition data_truthy (d : ResponseData) : bool :=
  match d with
  | DataString s => truthy (JStr s)
  | DataOther b => b
  end.

(** [response.data.split('\n')]. *)
Definition data_split (d : ResponseData) : completion (list jsstring) :=
  match d with
  | DataString s => Normal (split_on LF s)
  | DataOther _ => Throw (TypeError "response.data.split is not a function")
  end.

(** [.filter(Boolean)] over the mapped lines. *)
Definition filter_Boolean (l : list jsval) : list jsstring :=
  omap (fun v => match v with
                 | JStr s => if truthy v then Some s else None
                 | _ => None
                 end) l.

Section Refresh.

Variable cfg : Config.

(** The callback given to [lines.map]. *)
Definition line_to_proxy (line : jsstring) : jsval :=
  let parts := split_on COLON line in
  if (2 <=? length parts)%nat then
    JStr (PROXY_TYPE cfg ++ js "://" ++ to_jsstring (array_get parts 0)
            ++ js ":" ++ to_jsstring (array_get parts 1))
  else JNull.

Definition nonblank (line : jsstring) : bool :=
  negb (bool_decide (trim line = [])).

Definition parse_proxy_lines (all_lines : list jsstring) : list jsstring :=
  let lines := List.filter nonblank all_lines in
  filter_Boolean (map line_to_proxy lines).

(** [fetch] is the settlement of [await axios.get(PROXY_LIST_URL)]. *)
Definition refreshProxies (fetch : completion AxiosResponse) (pm : ProxyManager)
  : completion (ProxyManager * list LogEvent) :=
  try_catch
    (response ← fetch;
     if (status response =? 200) && data_truthy (data response) then
       all_lines ← data_split (data response);
       let pm' := set_proxies (parse_proxy_lines all_lines) pm in
       Normal (pm', [LogFetching; LogUpdated (length (proxies pm'))])
     else
       Normal (pm, [LogFetching; LogFetchStatus (status response)]))
    (fun error => Normal (pm, [LogFetching; LogFetchError (err_message error)])).

End Refresh.

(** ** URLs *)

Record URL := {
  href : jsstring;
  protocol : jsstring;
  hostname : jsstring;
  port : jsstring
}.

(** [Number(text)] for the text of a URL port: the empty string is 0 and
    a run of ASCII digits is its decimal value; [None] stands for NaN. *)
Fixpoint digits_value (acc : Z) (s : jsstring) : option Z :=
  match s with
  | [] => Some acc
  | c :: rest =>
      if (N.leb 48 c && N.leb c 57)%N
      then digits_value (10 * acc + Z.of_N (c - 48)) rest
      else None
  end.

Definition Number_of (text : jsstring) : option Z := digits_value 0 text.

Inductive TunnelKind : Type :=
  | httpOverHttp
  | httpOverHttps
  | httpsOverHttp
  | httpsOverHttps.

Record Agent := {
  agent_kind : TunnelKind;
  agent_host : jsstring;
  agent_port : option Z;
  agent_rejectUnauthorized : option bool
}.

Section Urls.

Variable cfg : Config.

(** The WHATWG parser applied to an input that has a colon.  Without a
    base URL an input needs a scheme, hence a colon, to parse at all;
    [new_URL] throws on the others before asking [url_parser]. *)
Variable url_parser : jsstring -> option URL.

Definition new_URL (input : jsval) : completion URL :=
  let text := to_jsstring input in
  if existsb (N.eqb COLON) text then
    match url_parser text with
    | Some u => Normal u
    | None => Throw (TypeError "Invalid URL")
    end
  else Throw (TypeError "Invalid URL").

Definition getTunnelAgent (targetUrl : jsstring) (proxyUrl : jsval)
  : completion (option Agent) :=
  parsedTarget ← new_URL (JStr targetUrl);
  let targetProtocol := protocol parsedTarget in
  parsedProxy ← new_URL proxyUrl;
  let proxyHost := hostname parsedProxy in
  let proxyPort := Number_of (port parsedProxy) in
  Normal
    (if jsstr_eqb targetProtocol (js "http:") then
       if jsstr_eqb (PROXY_TYPE cfg) (js "http")
       then Some {| agent_kind := httpOverHttp; agent_host := proxyHost;
                    agent_port := proxyPort; agent_rejectUnauthorized := None |}
       else Some {| agent_kind := httpOverHttps; agent_host := proxyHost;
                    agent_port := proxyPort;
                    agent_rejectUnauthorized := Some false |}
     else if jsstr_eqb targetProtocol (js "https:") then
       if jsstr_eqb (PROXY_TYPE cfg) (js "http")
       then Some {| agent_kind := httpsOverHttp; agent_host := proxyHost;
                    agent_port := proxyPort; agent_rejectUnauthorized := None |}
       else Some {| agent_kind := httpsOverHttps; agent_host := proxyHost;
                    agent_port := proxyPort;
                    agent_rejectUnauthorized := Some false |}
     else None).

End Urls.

(** ** The plain-HTTP handler *)

Abbreviation Headers := (gmap jsstring jsstring).

Record Request := {
  req_method : jsstring;
  req_url : jsstring;
  req_headers : Headers
}.

Record AxiosOptions := {
  opt_method : jsstring;
  opt_url : jsstring;
  opt_headers : Headers;
  opt_timeout : Z;
  opt_agent : option Agent
}.

Record UpstreamResponse := { up_status : Z; up_headers : Headers }.

Inductive Body : Type :=
  | TextBody (text : jsstring)
  | JsonBody (fields : list (jsstring * jsstring)).

(** What the handler does to [res], in order. *)
Inductive ResEffect : Type :=
  | WriteHead (code : Z) (headers : Headers)
  | End (body : Body)
  | PipeBody.

Definition is_WriteHead (e : ResEffect) : bool :=
  match e with
  | WriteHead _ _ => true
  | _ => false
  end.

(** The inputs one run of the handler takes from outside: the clock at
    the moment attempt [i] picks its candidate and at the moment its
    [await] settles, the settlement of the [axios] call of attempt [i],
    and what other handlers and timers do to the shared manager while
    attempt [i] is suspended in its [await]. *)
Record HttpWorld := {
  clock_select : nat -> Z;
  clock_settle : nat -> Z;
  axios : nat -> AxiosOptions -> completion UpstreamResponse;
  meanwhile : nat -> ProxyManager -> ProxyManager
}.

Record Handled := {
  res : list ResEffect;
  manager : ProxyManager;
  log : list LogEvent
}.

(** [headers[name] = headers[name] || dflt]. *)
Definition header_default (name dflt : jsstring) (h : Headers) : Headers :=
  <[name := match h !! name with
             | Some v => if truthy (JStr v) then v else dflt
             | None => dflt
             end]> h.

(** Where a candidate came from; the code keeps no such record, it is
    tracked here only to state properties. *)
Inductive Origin : Type := FromAffinity | FromRotation.

Section Http.

Variable cfg : Config.
Variable url_parser : jsstring -> option URL.

Definition sanitize_headers (h : Headers) : Headers :=
  header_default (js "accept-language") (js "en-US,en;q=0.5")
    (header_default (js "accept")
       (js "text/html,application/xhtml+xml,application/xml;q=0.9,*/*;q=0.8")
       (header_default (js "user-agent") (DEFAULT_USER_AGENT cfg)
          (delete (js "content-length")
             (delete (js "connection") (delete (js "host") h))))).

(** The candidate of an attempt:
    [getProxyForDomain(domain) || getNextProxy()] on attempt 0, else
    [getNextProxy()]. *)
Definition select_candidate (attempt : nat) (domain : jsstring) (now : Z)
    (pm : ProxyManager) : jsval * Origin * ProxyManager :=
  if (attempt =? 0)%nat then
    let '(cached, pm1) := getProxyForDomain cfg domain now pm in
    if truthy cached then (cached, FromAffinity, pm1)
    else let '(next, pm2) := getNextProxy pm1 in (next, FromRotation, pm2)
  else let '(next, pm1) := getNextProxy pm in (next, FromRotation, pm1).

(** The cache part of the [catch] block:
    [if (attempt === 0 && getProxyForDomain(domain) === proxyUrl)
       removeDomainMapping(domain)]. *)
Definition forget_failed (attempt : nat) (domain : jsstring) (proxyUrl : jsval)
    (now : Z) (pm : ProxyManager) : ProxyManager :=
  if (attempt =? 0)%nat then
    let '(current, pm1) := getProxyForDomain cfg domain now pm in
    if strict_eq current proxyUrl then removeDomainMapping domain pm1 else pm1
  else pm.

Definition bad_gateway (lastError : option JsError) : list ResEffect :=
  [ WriteHead 502 {[ js "Content-Type" := js "application/json" ]};
    End (JsonBody
           [ (js "error", js "Bad Gateway");
             (js "details", match lastError with
                            | Some e => err_message e
                            | None => js "Unknown error"
                            end) ]) ].

(** The [while (attempt < MAX_RETRIES)] loop and what follows it.  [fuel]
    bounds the number of iterations; [None] means it ran out. *)
Fixpoint retry_loop (w : HttpWorld) (req : Request) (targetUrl : URL)
    (headers : Headers) (fuel attempt : nat) (lastError : option JsError)
    (pm : ProxyManager) (lg : list LogEvent) : option Handled :=
  if Z.of_nat attempt <? MAX_RETRIES cfg then
    match fuel with
    | O => None
    | S fuel' =>
        let domain := hostname targetUrl in
        let '(proxyUrl, _, pm1) :=
          select_candidate attempt domain (clock_select w attempt) pm in
        let lg1 := lg ++ [LogHttpVia proxyUrl attempt] in
        match getTunnelAgent cfg url_parser (href targetUrl) proxyUrl with
        | Throw error =>
            retry_loop w req targetUrl headers fuel' (S attempt) (Some error)
              (forget_failed attempt domain proxyUrl (clock_select w attempt) pm1)
              (lg1 ++ [LogHttpError proxyUrl (err_message error)])
        | Normal agent =>
            let axiosOptions :=
              {| opt_method := req_method req; opt_url := href targetUrl;
                 opt_headers := headers; opt_timeout := 10000;
                 opt_agent := agent |} in
            let pm2 := meanwhile w attempt pm1 in
            match axios w attempt axiosOptions with
            | Throw error =>
                retry_loop w req targetUrl headers fuel' (S attempt) (Some error)
                  (forget_failed attempt domain proxyUrl
                     (clock_settle w attempt) pm2)
                  (lg1 ++ [LogHttpError proxyUrl (err_message error)])
            | Normal response =>
                Some {| res := [ WriteHead (up_status response)
                                   (up_headers response); PipeBody ];
                        manager := setDomainForDomain domain proxyUrl
                                     (clock_settle w attempt) pm2;
                        log := lg1 |}
            end
        end
    end
  else
    Some {| res := bad_gateway lastError; manager := pm; log := lg |}.

(** The first [try] block: parse [req.url] and check its protocol. *)
Definition parse_target (req : Request) : completion URL :=
  targetUrl ← new_URL url_parser (JStr (req_url req));
  if negb (jsstr_eqb (protocol targetUrl) (js "http:")
           || jsstr_eqb (protocol targetUrl) (js "https:"))
  then Throw {| err_name := js "Error"; err_message := js "Invalid protocol";
                err_code := [] |}
  else Normal targetUrl.

Definition requestHandler_fuel (fuel : nat) (w : HttpWorld) (req : Request)
    (pm : ProxyManager) : option Handled :=
  match parse_target req with
  | Throw _ =>
      Some {| res := [ WriteHead 400 {[ js "Content-Type" := js "text/plain" ]};
                       End (TextBody (js "Invalid or missing URL in request line")) ];
              manager := pm; log := [] |}
  | Normal targetUrl =>
      retry_loop w req targetUrl (sanitize_headers (req_headers req))
        fuel 0 None pm []
  end.

(** The loop runs at most [MAX_RETRIES] times, so that much fuel is
    enough (see [retry_loop_total]). *)
Definition requestHandler (w : HttpWorld) (req : Request) (pm : ProxyManager)
  : option Handled :=
  requestHandler_fuel (Z.to_nat (MAX_RETRIES cfg)) w req pm.

End Http.

(** ** The CONNECT handler

    Sockets are records of what was written to them, whether they were
    ended or destroyed, and the listeners registered on them, in
    registration order.  A listener is named by the closure of server.js
    it stands for.  The runtime delivers socket events one at a time to
    [dispatch]; a [Throw] result is an exception that no handler caught,
    which ends the process. *)

Inductive ProxyErrorListener : Type :=
  | RetryOnError      (* proxySocket.on('error') of attemptConnect *)
  | TearDownClient.   (* proxySocket.on('error') added once the tunnel is up *)

Inductive ClientErrorListener : Type :=
  | GuardClient                (* clientSocket.on('error') of serverOnConnect *)
  | TearDownProxy (sock : nat). (* clientSocket.on('error') added once the tunnel is up *)

Record ConnectionOptions := {
  co_host : jsstring;
  co_port : option Z;
  co_rejectUnauthorized : bool;
  co_servername : option jsstring;
  co_tls : bool
}.

Record ProxySocket := {
  ps_proxyUrl : jsval;
  ps_attempt : nat;
  ps_options : ConnectionOptions;
  ps_written : list jsstring;
  ps_destroyed : bool;
  ps_on_error : list ProxyErrorListener;
  ps_once_data : bool;
  ps_piped : bool
}.

Record ClientSocket := {
  cs_written : list jsstring;
  cs_ended : bool;
  cs_destroyed : bool;
  cs_on_error : list ClientErrorListener;
  cs_piped_to : list nat
}.

Record Tunnel := {
  t_manager : ProxyManager;
  t_client : ClientSocket;
  t_sockets : list ProxySocket;
  t_log : list LogEvent
}.

Inductive SocketEvent : Type :=
  | ProxyConnected (sock : nat)
  | ProxyData (sock : nat) (chunk : jsstring)
  | ProxyError (sock : nat) (err : JsError)
  | ClientError (err : JsError)
  | ClientData (chunk : jsstring).

Definition CRLF2 : jsstring := [CR; LF; CR; LF].
Definition line_200 : jsstring := js "HTTP/1.1 200 Connection Established" ++ CRLF2.
Definition line_502 : jsstring := js "HTTP/1.1 502 Bad Gateway" ++ CRLF2.

Definition with_manager (pm : ProxyManager) (t : Tunnel) : Tunnel :=
  {| t_manager := pm; t_client := t_client t; t_sockets := t_sockets t;
     t_log := t_log t |}.

Definition with_client (f : ClientSocket -> ClientSocket) (t : Tunnel) : Tunnel :=
  {| t_manager := t_manager t; t_client := f (t_client t);
     t_sockets := t_sockets t; t_log := t_log t |}.

Definition with_socket (i : nat) (f : ProxySocket -> ProxySocket) (t : Tunnel)
  : Tunnel :=
  {| t_manager := t_manager t; t_client := t_client t;
     t_sockets := alter f i (t_sockets t); t_log := t_log t |}.

Definition open_socket (s : ProxySocket) (t : Tunnel) : Tunnel :=
  {| t_manager := t_manager t; t_client := t_client t;
     t_sockets := t_sockets t ++ [s]; t_log := t_log t |}.

Definition logger (e : LogEvent) (t : Tunnel) : Tunnel :=
  {| t_manager := t_manager t; t_client := t_client t;
     t_sockets := t_sockets t; t_log := t_log t ++ [e] |}.

(** [logger.error] guarded by [err.code !== 'EPIPE']. *)
Definition logger_unless_EPIPE (err : JsError) (e : LogEvent) (t : Tunnel)
  : Tunnel :=
  if jsstr_eqb (err_code err) (js "EPIPE") then t else logger e t.

(** [socket.write]: bytes reach a socket only while it is open; the call
    itself does not throw. *)
Definition cs_write (chunk : jsstring) (c : ClientSocket) : ClientSocket :=
  if cs_destroyed c || cs_ended c then c
  else {| cs_written := cs_written c ++ [chunk]; cs_ended := cs_ended c;
          cs_destroyed := cs_destroyed c; cs_on_error := cs_on_error c;
          cs_piped_to := cs_piped_to c |}.

Definition cs_end (c : ClientSocket) : ClientSocket :=
  {| cs_written := cs_written c; cs_ended := true;
     cs_destroyed := cs_destroyed c; cs_on_error := cs_on_error c;
     cs_piped_to := cs_piped_to c |}.

Definition cs_destroy (c : ClientSocket) : ClientSocket :=
  {| cs_written := cs_written c; cs_ended := cs_ended c;
     cs_destroyed := true; cs_on_error := cs_on_error c;
     cs_piped_to := cs_piped_to c |}.

Definition cs_wire (sock : nat) (c : ClientSocket) : ClientSocket :=
  {| cs_written := cs_written c; cs_ended := cs_ended c;
     cs_destroyed := cs_destroyed c;
     cs_on_error := cs_on_error c ++ [TearDownProxy sock];
     cs_piped_to := cs_piped_to c ++ [sock] |}.

Definition ps_write (chunk : jsstring) (s : ProxySocket) : ProxySocket :=
  if ps_destroyed s then s
  else {| ps_proxyUrl := ps_proxyUrl s; ps_attempt := ps_attempt s;
          ps_options := ps_options s; ps_written := ps_written s ++ [chunk];
          ps_destroyed := ps_destroyed s; ps_on_error := ps_on_error s;
          ps_once_data := ps_once_data s; ps_piped := ps_piped s |}.

Definition ps_destroy (s : ProxySocket) : ProxySocket :=
  {| ps_proxyUrl := ps_proxyUrl s; ps_attempt := ps_attempt s;
     ps_options := ps_options s; ps_written := ps_written s;
     ps_destroyed := true; ps_on_error := ps_on_error s;
     ps_once_data := ps_once_data s; ps_piped := ps_piped s |}.

(** The [once('data')] listener is removed as it fires. *)
Definition ps_consume_once (s : ProxySocket) : ProxySocket :=
  {| ps_proxyUrl := ps_proxyUrl s; ps_attempt := ps_attempt s;
     ps_options := ps_options s; ps_written := ps_written s;
     ps_destroyed := ps_destroyed s; ps_on_error := ps_on_error s;
     ps_once_data := false; ps_piped := ps_piped s |}.

(** Both [pipe] calls and the second [on('error')] of the proxy socket. *)
Definition ps_wire (s : ProxySocket) : ProxySocket :=
  {| ps_proxyUrl := ps_proxyUrl s; ps_attempt := ps_attempt s;
     ps_options := ps_options s; ps_written := ps_written s;
     ps_destroyed := ps_destroyed s;
     ps_on_error := ps_on_error s ++ [TearDownClient];
     ps_once_data := ps_once_data s; ps_piped := true |}.

Section Connect.

Variable cfg : Config.
Variable url_parser : jsstring -> option URL.

(** [net.isIP]: 0 for a host name, 4 or 6 for a literal address. *)
Variable net_isIP : jsstring -> Z.

(** [req.url] of the CONNECT request, ["host:port"], and the bytes [head]
    already read from the client. *)
Variable req_url : jsstring.
Variable head : jsstring.

(** [const [targetHost, targetPortRaw] = req.url.split(':')];
    [domain = targetHost].  [targetPort] is computed by the source and
    never used. *)
Definition domain : jsstring := to_jsstring (array_get (split_on COLON req_url) 0).

Definition connectRequest : jsstring :=
  js "CONNECT " ++ req_url ++ js " HTTP/1.1" ++ [CR; LF]
  ++ js "Host: " ++ req_url ++ [CR; LF]
  ++ js "Proxy-Connection: Keep-Alive" ++ CRLF2.

Definition attemptConnect (attempt : nat) (now : Z) (t : Tunnel)
  : completion Tunnel :=
  if MAX_RETRIES cfg <=? Z.of_nat attempt then
    Normal (with_client cs_end (with_client (cs_write line_502) t))
  else
    let '(proxyUrl, _, pm1) :=
      select_candidate cfg attempt domain now (t_manager t) in
    let t1 := logger (LogConnectVia proxyUrl attempt) (with_manager pm1 t) in
    parsedProxy ← new_URL url_parser proxyUrl;
    let proxyHost := hostname parsedProxy in
    let proxyPort := Number_of (port parsedProxy) in
    let tls := negb (jsstr_eqb (PROXY_TYPE cfg) (js "http")) in
    let connectionOptions :=
      {| co_host := proxyHost; co_port := proxyPort;
         co_rejectUnauthorized := false;
         co_servername :=
           if tls && (net_isIP proxyHost =? 0) then Some proxyHost else None;
         co_tls := tls |} in
    Normal
      (open_socket
         {| ps_proxyUrl := proxyUrl; ps_attempt := attempt;
            ps_options := connectionOptions; ps_written := [];
            ps_destroyed := false; ps_on_error := [RetryOnError];
            ps_once_data := true; ps_piped := false |}
         t1).

(** The [once('data')] listener of socket [i]. *)
Definition on_first_data (i : nat) (s : ProxySocket) (chunk : jsstring)
    (now : Z) (t : Tunnel) : completion Tunnel :=
  if includes (js "200") chunk then
    let t1 := with_client (cs_write line_200) t in
    let t2 := if (0 <? length head)%nat
              then with_socket i (ps_write head) t1 else t1 in
    let t3 := with_client (cs_wire i) (with_socket i ps_wire t2) in
    Normal
      (with_manager
         (setDomainForDomain domain (ps_proxyUrl s) now (t_manager t3)) t3)
  else
    let t1 := logger (LogConnectFailed (ps_proxyUrl s) (ps_attempt s) chunk) t in
    attemptConnect (ps_attempt s + 1) now (with_socket i ps_destroy t1).

Definition run_proxy_listener (i : nat) (s : ProxySocket) (err : JsError)
    (now : Z) (l : ProxyErrorListener) (t : Tunnel) : completion Tunnel :=
  match l with
  | RetryOnError =>
      let t1 := logger_unless_EPIPE err
                  (LogProxySocketError (ps_proxyUrl s) (err_message err)) t in
      attemptConnect (ps_attempt s + 1) now (with_socket i ps_destroy t1)
  | TearDownClient =>
      let t1 := logger_unless_EPIPE err
                  (LogProxyPipeError (err_message err)) t in
      Normal (with_client cs_destroy t1)
  end.

Definition run_client_listener (err : JsError) (l : ClientErrorListener)
    (t : Tunnel) : Tunnel :=
  match l with
  | GuardClient =>
      with_client cs_destroy
        (logger_unless_EPIPE err (LogClientSocketError (err_message err)) t)
  | TearDownProxy i =>
      with_socket i ps_destroy
        (logger_unless_EPIPE err (LogClientPipeError (err_message err)) t)
  end.

(** [emit]: the listeners registered when the event fires run in order;
    an exception thrown by one of them skips the rest. *)
Fixpoint emit_proxy_error (i : nat) (s : ProxySocket) (err : JsError) (now : Z)
    (ls : list ProxyErrorListener) (t : Tunnel) : completion Tunnel :=
  match ls with
  | [] => Normal t
  | l :: rest =>
      t' ← run_proxy_listener i s err now l t;
      emit_proxy_error i s err now rest t'
  end.

(** One socket event, read at clock value [now].  A destroyed socket
    emits nothing further, and a socket that fails is destroyed by the
    runtime before its ['error'] listeners run. *)
Definition dispatch (now : Z) (ev : SocketEvent) (t : Tunnel)
  : completion Tunnel :=
  match ev with
  | ProxyConnected i =>
      match t_sockets t !! i with
      | Some s =>
          if ps_destroyed s then Normal t
          else Normal (with_socket i (ps_write connectRequest) t)
      | None => Normal t
      end
  | ProxyData i chunk =>
      match t_sockets t !! i with
      | Some s =>
          if ps_destroyed s then Normal t
          else if ps_once_data s then
            on_first_data i s chunk now (with_socket i ps_consume_once t)
          else if ps_piped s then Normal (with_client (cs_write chunk) t)
          else Normal t
      | None => Normal t
      end
  | ProxyError i err =>
      match t_sockets t !! i with
      | Some s =>
          if ps_destroyed s then Normal t
          else emit_proxy_error i s err now (ps_on_error s)
                 (with_socket i ps_destroy t)
      | None => Normal t
      end
  | ClientError err =>
      if cs_destroyed (t_client t) then Normal t
      else Normal (fold_left (fun t' l => run_client_listener err l t')
                     (cs_on_error (t_client t)) (with_client cs_destroy t))
  | ClientData chunk =>
      if cs_destroyed (t_client t) then Normal t
      else Normal (fold_left (fun t' i => with_socket i (ps_write chunk) t')
                     (cs_piped_to (t_client t)) t)
  end.

(** The ['connect'] listener of the server. *)
Definition serverOnConnect (now : Z) (pm : ProxyManager) : completion Tunnel :=
  attemptConnect 0 now
    {| t_manager := pm;
       t_client := {| cs_written := []; cs_ended := false;
                      cs_destroyed := false; cs_on_error := [GuardClient];
                      cs_piped_to := [] |};
       t_sockets := []; t_log := [] |}.

(** The events of one connection in the order the runtime delivers them,
    each with its clock reading. *)
Fixpoint deliver (events : list (Z * SocketEvent)) (t : Tunnel)
  : completion Tunnel :=
  match events with
  | [] => Normal t
  | (now, ev) :: rest => t' ← dispatch now ev t; deliver rest t'
  end.

(** Attempt [k] as the scenario of a refused handshake: socket [k]
    connects, then its first chunk arrives. *)
Definition refusal (k : nat) (reply : Z * jsstring) : list (Z * SocketEvent) :=
  [ (fst reply, ProxyConnected k); (fst reply, ProxyData k (snd reply)) ].

Fixpoint refusals (k : nat) (replies : list (Z * jsstring))
  : list (Z * SocketEvent) :=
  match replies with
  | [] => []
  | r :: rest => refusal k r ++ refusals (S k) rest
  end.

End Connect.

(** ** Sample inputs

    Concrete inputs on which the model is run in the instances below. *)

Fixpoint upto (sep : N) (s : jsstring) : jsstring :=
  match s with
  | [] => []
  | c :: rest => if N.eqb c sep then [] else c :: upto sep rest
  end.

Fixpoint after (sep : N) (s : jsstring) : option jsstring :=
  match s with
  | [] => None
  | c :: rest => if N.eqb c sep then Some rest else after sep rest
  end.

(** A parser for inputs of the shape [scheme://host[:port][/path]], enough
    to run the handlers on the endpoints a refresh builds. *)
Definition sample_url_parser (text : jsstring) : option URL :=
  match after COLON text with
  | Some rest =>
      if starts_with (js "//") rest then
        let authority := upto 47 (drop 2 rest) in
        let host := upto COLON authority in
        let port_text := default [] (after COLON authority) in
        match Number_of port_text with
        | Some _ =>
            if bool_decide (host = []) then None
            else Some {| href := text; protocol := upto COLON text ++ [COLON];
                         hostname := host; port := port_text |}
        | None => None
        end
      else None
  | None => None
  end.

Definition sample_isIP (host : jsstring) : Z :=
  if forallb (fun c => N.eqb c 46 || (N.leb 48 c && N.leb c 57))%N host
  then 4 else 0.

Definition sample_body : jsstring :=
  js "1.2.3.4:8080:US" ++ [LF] ++ js "5.6.7.8:3128:DE" ++ [LF].

Definition ECONNRESET : JsError :=
  {| err_name := js "Error"; err_message := js "read ECONNRESET";
     err_code := js "ECONNRESET" |}.

Definition ETIMEDOUT : JsError :=
  {| err_name := js "AxiosError"; err_message := js "timeout of 10000ms exceeded";
     err_code := js "ECONNABORTED" |}.

Definition sample_request : Request :=
  {| req_method := js "GET"; req_url := js "http://example.com/";
     req_headers := ∅ |}.

(** A world in which every upstream request times out and nothing else
    touches the manager. *)
Definition world_all_fail : HttpWorld :=
  {| clock_select := fun i => 1000 + 20000 * Z.of_nat i;
     clock_settle := fun i => 11000 + 20000 * Z.of_nat i;
     axios := fun _ _ => Throw ETIMEDOUT;
     meanwhile := fun _ pm => pm |}.

(** The same world, except that while attempt 0 is suspended another
    request to the same domain succeeds through [p] and records it. *)
Definition world_concurrent_success (p : jsstring) : HttpWorld :=
  {| clock_select := clock_select world_all_fail;
     clock_settle := clock_settle world_all_fail;
     axios := axios world_all_fail;
     meanwhile := fun i pm =>
       if (i =? 0)%nat
       then setDomainForDomain (js "example.com") (JStr p) 5000 pm
       else pm |}.

(** The manager after a refresh settles. *)
Definition refreshed (cfg : Config) (fetch : completion AxiosResponse)
    (pm : ProxyManager) : ProxyManager :=
  match refreshProxies cfg fetch pm with
  | Normal (pm', _) => pm'
  | Throw _ => pm
  end.

Definition fetched (body : jsstring) : completion AxiosResponse :=
  Normal {| status := 200; data := DataString body |}.

(** A pool of three proxies is loaded, two selections move the cursor to
    2, and the next refresh finds a list of one line. *)
Definition pool_after_shrinking_refresh : ProxyManager :=
  let pm0 := refreshed default_config
               (fetched (js "10.0.0.1:80" ++ [LF] ++ js "10.0.0.2:80" ++ [LF]
                         ++ js "10.0.0.3:80" ++ [LF]))
               new_ProxyManager in
  let pm1 := snd (getNextProxy pm0) in
  let pm2 := snd (getNextProxy pm1) in
  refreshed default_config (fetched (js "10.0.0.9:80" ++ [LF])) pm2.

(** ** The proxy list as the specification reads it

    A body is a sequence of lines separated by line feeds; a line that is
    not blank and has a colon gives the endpoint built from its first two
    colon-delimited fields. *)

Fixpoint join_lines (lines : list jsstring) : jsstring :=
  match lines with
  | [] => []
  | [l] => l
  | l :: rest => l ++ LF :: join_lines rest
  end.

Definition endpoint_of_line (cfg : Config) (line : jsstring) : option jsstring :=
  if forallb is_js_space line then None
  else match after COLON line with
       | Some rest =>
           Some (PROXY_TYPE cfg ++ js "://" ++ upto COLON line
                   ++ js ":" ++ upto COLON rest)
       | None => None
       end.

(** ** Reading a handler's log *)

Definition is_http_error (e : LogEvent) : bool :=
  match e with
  | LogHttpError _ _ => true
  | _ => false
  end.

(** The number of attempts that ended in the [catch] block. *)
Definition failures (lg : list LogEvent) : nat :=
  length (List.filter is_http_error lg).

(** The log of attempts [first], [first + 1], ... that all found no proxy
    to use. *)
Definition log_no_proxy (first count : nat) : list LogEvent :=
  flat_map (fun i => [LogHttpVia JNull i; LogHttpError JNull (js "Invalid URL")])
    (seq first count).

(** ** Describing tunnel states *)

(** The socket [attemptConnect] opens towards the candidate [proxyUrl],
    parsed as [u]. *)
Definition dialled (cfg : Config) (net_isIP : jsstring -> Z) (u : URL)
    (proxyUrl : jsval) (attempt : nat) : ProxySocket :=
  let tls := negb (jsstr_eqb (PROXY_TYPE cfg) (js "http")) in
  {| ps_proxyUrl := proxyUrl; ps_attempt := attempt;
     ps_options :=
       {| co_host := hostname u; co_port := Number_of (port u);
          co_rejectUnauthorized := false;
          co_servername :=
            if tls && (net_isIP (hostname u) =? 0) then Some (hostname u)
            else None;
          co_tls := tls |};
     ps_written := []; ps_destroyed := false; ps_on_error := [RetryOnError];
     ps_once_data := true; ps_piped := false |}.

(** A candidate is dialable when [new URL] accepts it. *)
Definition dialable (url_parser : jsstring -> option URL) (v : jsval) : bool :=
  match new_URL url_parser v with
  | Normal _ => true
  | Throw _ => false
  end.

(** The pool can serve a selection: the cursor is inside the sequence and
    every endpoint is dialable. *)
Definition pool_ready (url_parser : jsstring -> option URL) (pm : ProxyManager)
  : bool :=
  (index pm <? length (proxies pm))%nat
  && forallb (fun p => dialable url_parser (JStr p)) (proxies pm).

(** The proxy the cache would hand to attempt 0, if any, is dialable. *)
Definition affinity_ready (cfg : Config) (url_parser : jsstring -> option URL)
    (domain : jsstring) (now : Z) (pm : ProxyManager) : bool :=
  let cached := fst (getProxyForDomain cfg domain now pm) in
  if truthy cached then dialable url_parser cached else true.

(** A handshake reply without the token [200]. *)
Definition refuses (reply : Z * jsstring) : bool :=
  negb (includes (js "200") (snd reply)).

(** The client socket as [serverOnConnect] finds it. *)
Definition fresh_client : ClientSocket :=
  {| cs_written := []; cs_ended := false; cs_destroyed := false;
     cs_on_error := [GuardClient]; cs_piped_to := [] |}.

Definition reply_407 : jsstring :=
  js "HTTP/1.1 407 Proxy Authentication Required" ++ CRLF2.

(** ** Repeated selection *)

(** [n] calls of [getNextProxy] in a row: what they return, in order, and
    the manager they leave. *)
Fixpoint rotate (n : nat) (pm : ProxyManager) : list jsval * ProxyManager :=
  match n with
  | O => ([], pm)
  | S k =>
      let '(p, pm1) := getNextProxy pm in
      let '(ps, pm2) := rotate k pm1 in
      (p :: ps, pm2)
  end.

(** ** More sample inputs *)

(** A world in which every upstream request is answered 200. *)
Definition world_all_ok : HttpWorld :=
  {| clock_select := clock_select world_all_fail;
     clock_settle := clock_settle world_all_fail;
     axios := fun _ _ => Normal {| up_status := 200; up_headers := ∅ |};
     meanwhile := fun _ pm => pm |}.

Definition sample_pool : ProxyManager :=
  refreshed default_config (fetched sample_body) new_ProxyManager.

Definition sample_target : URL :=
  {| href := js "http://example.com/"; protocol := js "http:";
     hostname := js "example.com"; port := [] |}.

(** The [tunnel] constructor [getTunnelAgent] picks for a target protocol
    and a proxy type. *)
Definition tunnel_kind_for (cfg : Config) (targetProtocol : jsstring)
  : TunnelKind :=
  if jsstr_eqb targetProtocol (js "http:") then
    if jsstr_eqb (PROXY_TYPE cfg) (js "http") then httpOverHttp
    else httpOverHttps
  else
    if jsstr_eqb (PROXY_TYPE cfg) (js "http") then httpsOverHttp
    else httpsOverHttps.

(** ** Auxiliary notions *)

(** Two names given as literals are different. *)
Ltac names_differ := intros Heq; vm_compute in Heq; discriminate Heq.


(** Two managers with the same sequence and the same entries outside one
    domain. *)
Definition same_but (d : jsstring) (pm pm' : ProxyManager) : Prop :=
  proxies pm' = proxies pm
  /\ forall other, other <> d ->
       domainCache pm' !! other = domainCache pm !! other.






(** The log lines written by the ['error'] listeners of the sockets. *)
Definition is_socket_error_log (e : LogEvent) : bool :=
  match e with
  | LogProxySocketError _ _ | LogProxyPipeError _
  | LogClientSocketError _ | LogClientPipeError _ => true
  | _ => false
  end.

Definition EPIPE : JsError :=
  {| err_name := js "Error"; err_message := js "write EPIPE";
     err_code := js "EPIPE" |}.

(** The tunnel of [CONNECT example.com:443] through the sample pool once
    the first proxy has accepted the handshake. *)
Definition sample_tunnel_up : Tunnel :=
  match
    t0 ← serverOnConnect default_config sample_url_parser sample_isIP
           (js "example.com:443") 1000 sample_pool;
    deliver default_config sample_url_parser sample_isIP
      (js "example.com:443") []
      [(1001, ProxyConnected 0%nat); (1002, ProxyData 0%nat line_200)] t0
  with
  | Normal t => t
  | Throw _ =>
      {| t_manager := sample_pool; t_client := fresh_client;
         t_sockets := []; t_log := [] |}
  end.

(** A pool loaded from a list whose second line is a comment: the line
    has a colon, so a refresh turns it into an endpoint, which [new URL]
    does not accept. *)
Definition pool_with_comment_line : ProxyManager :=
  refreshed default_config
    (fetched (js "1.2.3.4:8080" ++ [LF] ++ js "# updated: today" ++ [LF]))
    new_ProxyManager.

(** The sample pool with [https://1.2.3.4:8080] recorded for
    [example.com] at time 900. *)
Definition sample_pool_with_affinity : ProxyManager :=
  setDomainForDomain (js "example.com") (JStr (js "https://1.2.3.4:8080")) 900
    sample_pool.





(** ** The earlier revision of server.js

    The source file also holds the revision of server.js that has no
    affinity cache: its ProxyManager has only [proxies] and [index], with
    the same [refreshProxies] and [getNextProxy]; its [getTunnelAgent],
    URL check and header handling are the ones above.  What differs is
    modelled here: the request handler, which tests the selected proxy,
    and the ['connect'] listener, which makes a single attempt.  The
    manager record is reused; this revision never reads or writes its
    [domainCache]. *)

Module Legacy.

Inductive LogEvent : Type :=
  | LogHttpVia (proxyUrl : jsval)
  | LogHttpError (proxyUrl : jsval) (message : jsstring)
  | LogConnectVia (proxyUrl : jsval)
  | LogConnectError (proxyUrl : jsval) (message : jsstring).

Record Handled := {
  res : list ResEffect;
  manager : ProxyManager;
  log : list LogEvent
}.

Definition is_http_error (e : LogEvent) : bool :=
  match e with
  | LogHttpError _ _ => true
  | _ => false
  end.

(** The number of attempts that ended in the [catch] block. *)
Definition failures (lg : list LogEvent) : nat :=
  length (List.filter is_http_error lg).

(** The defaults of this revision: three attempts. *)
Definition default_config : Config :=
  {| PROXY_TYPE := js "https";
     MAX_RETRIES := 3;
     PROXY_DOMAIN_CACHE_TTL := 0;
     DEFAULT_USER_AGENT := DEFAULT_USER_AGENT default_config |}.

Definition no_proxies : list ResEffect :=
  [ WriteHead 500 {[ js "Content-Type" := js "application/json" ]};
    End (JsonBody [ (js "error", js "No proxies available") ]) ].

Definition line_500 : jsstring :=
  js "HTTP/1.1 500 No proxies available" ++ CRLF2.

(** The proxy socket of the single attempt.  [ps_failed] is set by the
    runtime when the socket fails; the code only ever ends it. *)
Record ProxySocket := {
  ps_proxyUrl : jsval;
  ps_options : ConnectionOptions;
  ps_written : list jsstring;
  ps_ended : bool;
  ps_failed : bool;
  ps_once_data : bool;
  ps_piped : bool
}.

Record Tunnel := {
  t_manager : ProxyManager;
  t_client : ClientSocket;
  t_socket : option ProxySocket;
  t_log : list LogEvent
}.

(** The events of the proxy socket that the listener handles. *)
Inductive SocketEvent : Type :=
  | ProxyConnected
  | ProxyData (chunk : jsstring)
  | ProxyError (err : JsError).

Definition ps_write (chunk : jsstring) (s : ProxySocket) : ProxySocket :=
  if ps_ended s || ps_failed s then s
  else {| ps_proxyUrl := ps_proxyUrl s; ps_options := ps_options s;
          ps_written := ps_written s ++ [chunk]; ps_ended := ps_ended s;
          ps_failed := ps_failed s; ps_once_data := ps_once_data s;
          ps_piped := ps_piped s |}.

Definition ps_end (s : ProxySocket) : ProxySocket :=
  {| ps_proxyUrl := ps_proxyUrl s; ps_options := ps_options s;
     ps_written := ps_written s; ps_ended := true;
     ps_failed := ps_failed s; ps_once_data := ps_once_data s;
     ps_piped := ps_piped s |}.

Definition ps_fail (s : ProxySocket) : ProxySocket :=
  {| ps_proxyUrl := ps_proxyUrl s; ps_options := ps_options s;
     ps_written := ps_written s; ps_ended := ps_ended s;
     ps_failed := true; ps_once_data := ps_once_data s;
     ps_piped := ps_piped s |}.

Definition ps_consume_once (s : ProxySocket) : ProxySocket :=
  {| ps_proxyUrl := ps_proxyUrl s; ps_options := ps_options s;
     ps_written := ps_written s; ps_ended := ps_ended s;
     ps_failed := ps_failed s; ps_once_data := false;
     ps_piped := ps_piped s |}.

Definition ps_pipe (s : ProxySocket) : ProxySocket :=
  {| ps_proxyUrl := ps_proxyUrl s; ps_options := ps_options s;
     ps_written := ps_written s; ps_ended := ps_ended s;
     ps_failed := ps_failed s; ps_once_data := ps_once_data s;
     ps_piped := true |}.

(** [clientSocket.pipe(proxySocket)]; this revision registers no
    listener on the client socket. *)
Definition cs_pipe (c : ClientSocket) : ClientSocket :=
  {| cs_written := cs_written c; cs_ended := cs_ended c;
     cs_destroyed := cs_destroyed c; cs_on_error := cs_on_error c;
     cs_piped_to := cs_piped_to c ++ [0%nat] |}.

Definition new_client : ClientSocket :=
  {| cs_written := []; cs_ended := false; cs_destroyed := false;
     cs_on_error := []; cs_piped_to := [] |}.

Section Handlers.

Variable cfg : Config.
Variable url_parser : jsstring -> option URL.
Variable net_isIP : jsstring -> Z.

(** The [while (attempt < MAX_RETRIES)] loop of this revision and the 502
    after it. *)
Fixpoint retry_loop (w : HttpWorld) (req : Request) (targetUrl : URL)
    (headers : Headers) (fuel attempt : nat) (lastError : option JsError)
    (pm : ProxyManager) (lg : list LogEvent) : option Handled :=
  if Z.of_nat attempt <? MAX_RETRIES cfg then
    match fuel with
    | O => None
    | S fuel' =>
        let '(proxyUrl, pm1) := getNextProxy pm in
        if negb (truthy proxyUrl) then
          Some {| res := no_proxies; manager := pm1; log := lg |}
        else
          let lg1 := lg ++ [LogHttpVia proxyUrl] in
          match getTunnelAgent cfg url_parser (href targetUrl) proxyUrl with
          | Throw error =>
              retry_loop w req targetUrl headers fuel' (S attempt) (Some error)
                pm1 (lg1 ++ [LogHttpError proxyUrl (err_message error)])
          | Normal agent =>
              let axiosOptions :=
                {| opt_method := req_method req; opt_url := href targetUrl;
                   opt_headers := headers; opt_timeout := 10000;
                   opt_agent := agent |} in
              let pm2 := meanwhile w attempt pm1 in
              match axios w attempt axiosOptions with
              | Throw error =>
                  retry_loop w req targetUrl headers fuel' (S attempt)
                    (Some error) pm2
                    (lg1 ++ [LogHttpError proxyUrl (err_message error)])
              | Normal response =>
                  Some {| res := [ WriteHead (up_status response)
                                     (up_headers response); PipeBody ];
                          manager := pm2; log := lg1 |}
              end
          end
    end
  else
    Some {| res := bad_gateway lastError; manager := pm; log := lg |}.


Definition requestHandler (w : HttpWorld) (req : Request) (pm : ProxyManager)
  : option Handled :=
  match parse_target url_parser req with
  | Throw _ =>
      Some {| res := [ WriteHead 400 {[ js "Content-Type" := js "text/plain" ]};
                       End (TextBody (js "Invalid or missing URL in request line")) ];
              manager := pm; log := [] |}
  | Normal targetUrl =>
      retry_loop w req targetUrl (sanitize_headers cfg (req_headers req))
        (Z.to_nat (MAX_RETRIES cfg)) 0 None pm []
  end.

Variable req_url : jsstring.
Variable head : jsstring.

(** The ['connect'] listener up to the point where it returns. *)
Definition onConnect (pm : ProxyManager) : completion Tunnel :=
  let '(proxyUrl, pm1) := getNextProxy pm in
  if negb (truthy proxyUrl) then
    Normal {| t_manager := pm1;
              t_client := cs_end (cs_write line_500 new_client);
              t_socket := None; t_log := [] |}
  else
    parsedProxy ← new_URL url_parser proxyUrl;
    let proxyHost := hostname parsedProxy in
    let proxyPort := Number_of (port parsedProxy) in
    let tls := negb (jsstr_eqb (PROXY_TYPE cfg) (js "http")) in
    Normal {| t_manager := pm1; t_client := new_client;
              t_socket :=
                Some {| ps_proxyUrl := proxyUrl;
                        ps_options :=
                          {| co_host := proxyHost; co_port := proxyPort;
                             co_rejectUnauthorized := false;
                             co_servername :=
                               if tls && (net_isIP proxyHost =? 0)
                               then Some proxyHost else None;
                             co_tls := tls |};
                        ps_written := []; ps_ended := false;
                        ps_failed := false; ps_once_data := true;
                        ps_piped := false |};
              t_log := [LogConnectVia proxyUrl] |}.

Definition with_client (f : ClientSocket -> ClientSocket) (t : Tunnel) : Tunnel :=
  {| t_manager := t_manager t; t_client := f (t_client t);
     t_socket := t_socket t; t_log := t_log t |}.

Definition with_socket (f : ProxySocket -> ProxySocket) (t : Tunnel) : Tunnel :=
  {| t_manager := t_manager t; t_client := t_client t;
     t_socket := f <$> t_socket t; t_log := t_log t |}.

(** The [once('data')] listener. *)
Definition on_first_data (chunk : jsstring) (t : Tunnel) : Tunnel :=
  if includes (js "200") chunk then
    let t1 := with_client (cs_write line_200) t in
    let t2 := if (0 <? length head)%nat
              then with_socket (ps_write head) t1 else t1 in
    with_socket ps_pipe (with_client cs_pipe t2)
  else
    with_socket ps_end
      (with_client cs_end (with_client (cs_write line_502) t)).

(** One event of the proxy socket.  A socket that has failed emits
    nothing further. *)
Definition dispatch (ev : SocketEvent) (t : Tunnel) : Tunnel :=
  match t_socket t with
  | None => t
  | Some s =>
      if ps_failed s then t
      else
        match ev with
        | ProxyConnected =>
            with_socket (ps_write (connectRequest req_url)) t
        | ProxyData chunk =>
            if ps_once_data s then
              on_first_data chunk (with_socket ps_consume_once t)
            else if ps_piped s then with_client (cs_write chunk) t
            else t
        | ProxyError err =>
            let t1 := with_socket ps_fail t in
            let t2 :=
              {| t_manager := t_manager t1; t_client := t_client t1;
                 t_socket := t_socket t1;
                 t_log := t_log t1
                          ++ [LogConnectError (ps_proxyUrl s) (err_message err)] |} in
            with_client cs_end (with_client (cs_write line_502) t2)
        end
  end.

Definition deliver (events : list SocketEvent) (t : Tunnel) : Tunnel :=
  fold_left (fun t' ev => dispatch ev t') events t.

End Handlers.

End Legacy.

(** ** The browser extension

    [popup.js] keeps a flag in [chrome.storage.sync], shows it, and on a
    click flips it and tells [background.js], which installs or clears
    the browser's proxy settings.  The storage, messaging and settings
    calls are asynchronous; the model runs the chain started by one
    click to its end before the next click starts. *)

Module Extension.

Record ProxyServer := { scheme : jsstring; host : jsstring; port : Z }.

(** [port] is [parseInt("3000", 10)]. *)
Definition PROXY_SERVER : ProxyServer :=
  {| scheme := js "http"; host := js "localhost"; port := 3000 |}.

(** The [value] given to [chrome.proxy.settings.set]. *)
Inductive ProxyConfig : Type :=
  | fixed_servers (singleProxy : ProxyServer) (bypassList : list jsstring)
  | direct.

Inductive ConsoleLine : Type :=
  | ProxyActivated (config : ProxyConfig)
  | ProxyDeactivated.

(** What the extension sees of the browser: the stored [proxyActive]
    ([None] when it was never stored), the proxy settings of scope
    [regular] ([None] while the extension has not set them), and the
    console of the background page. *)
Record Chrome := {
  proxyActive : option bool;
  settings : option ProxyConfig;
  console : list ConsoleLine
}.

(** The two elements of the popup. *)
Record Popup := {
  toggleBtn_textContent : jsstring;
  toggleBtn_classList : gset jsstring;
  statusText_textContent : jsstring
}.

(** The listener of [chrome.runtime.onMessage] in [background.js]. *)
Definition onMessage (action : jsstring) (c : Chrome) : Chrome :=
  if jsstr_eqb action (js "activate") then
    let config := fixed_servers PROXY_SERVER [js "<local>"] in
    {| proxyActive := proxyActive c; settings := Some config;
       console := console c ++ [ProxyActivated config] |}
  else if jsstr_eqb action (js "deactivate") then
    {| proxyActive := proxyActive c; settings := Some direct;
       console := console c ++ [ProxyDeactivated] |}
  else c.

Definition updateUI (active : bool) (ui : Popup) : Popup :=
  if active then
    {| toggleBtn_textContent := js "Disable Proxy";
       toggleBtn_classList :=
         (toggleBtn_classList ui ∖ {[ js "bg-blue-500" ]}) ∪ {[ js "bg-red-500" ]};
       statusText_textContent := js "Proxy is active" |}
  else
    {| toggleBtn_textContent := js "Activate Proxy";
       toggleBtn_classList :=
         (toggleBtn_classList ui ∖ {[ js "bg-red-500" ]}) ∪ {[ js "bg-blue-500" ]};
       statusText_textContent := js "Proxy is off" |}.

(** [result.proxyActive || false] and [!result.proxyActive]. *)
Definition stored_active (c : Chrome) : bool := default false (proxyActive c).

(** The [DOMContentLoaded] listener, through the callback of its
    [storage.sync.get]. *)
Definition onLoad (c : Chrome) (ui : Popup) : Popup :=
  updateUI (stored_active c) ui.

(** The [click] listener, through the callbacks of its [get] and [set]
    and the handling of its message by the background page. *)
Definition onClick (state : Chrome * Popup) : Chrome * Popup :=
  let '(c, ui) := state in
  let active := negb (stored_active c) in
  let c1 := {| proxyActive := Some active; settings := settings c;
               console := console c |} in
  let ui1 := updateUI active ui in
  (onMessage (if active then js "activate" else js "deactivate") c1, ui1).

(** [n] clicks, one after the other. *)
Fixpoint clicks (n : nat) (state : Chrome * Popup) : Chrome * Popup :=
  match n with
  | O => state
  | S k => onClick (clicks k state)
  end.

End Extension.

(** * Properties *)

(** ** Strings *)

Lemma split_on_cons (sep : N) (s : jsstring) :
  exists f fs, split_on sep s = f :: fs.
Proof.
  induction s as [|c s IH]; simpl; [eauto|].
  destruct (N.eqb c sep); [eauto|].
  destruct IH as (f & fs & ->). eauto.
Qed.

(** [split] cuts at the first separator and splits what follows it. *)
Lemma split_on_upto_after (sep : N) (s : jsstring) :
  split_on sep s =
  upto sep s :: match after sep s with
                | Some rest => split_on sep rest
                | None => []
                end.
Proof.
  induction s as [|c s IH]; simpl; [reflexivity|].
  destruct (N.eqb c sep); [reflexivity|].
  rewrite IH. reflexivity.
Qed.

Lemma upto_no_sep (sep : N) (s : jsstring) : sep ∉ s -> upto sep s = s.
Proof.
  induction s as [|c s IH]; simpl; intros Hs; [reflexivity|].
  destruct (N.eqb_spec c sep) as [->|_].
  - exfalso. apply Hs. left.
  - f_equal. apply IH. intros Hin. apply Hs. by right.
Qed.

Lemma after_no_sep (sep : N) (s : jsstring) : sep ∉ s -> after sep s = None.
Proof.
  induction s as [|c s IH]; simpl; intros Hs; [reflexivity|].
  destruct (N.eqb_spec c sep) as [->|_].
  - exfalso. apply Hs. left.
  - apply IH. intros Hin. apply Hs. by right.
Qed.

Lemma upto_app_sep (sep : N) (s t : jsstring) :
  sep ∉ s -> upto sep (s ++ sep :: t) = s.
Proof.
  induction s as [|c s IH]; simpl; intros Hs.
  - by rewrite N.eqb_refl.
  - destruct (N.eqb_spec c sep) as [->|_].
    + exfalso. apply Hs. left.
    + f_equal. apply IH. intros Hin. apply Hs. by right.
Qed.

Lemma after_app_sep (sep : N) (s t : jsstring) :
  sep ∉ s -> after sep (s ++ sep :: t) = Some t.
Proof.
  induction s as [|c s IH]; simpl; intros Hs.
  - by rewrite N.eqb_refl.
  - destruct (N.eqb_spec c sep) as [->|_].
    + exfalso. apply Hs. left.
    + apply IH. intros Hin. apply Hs. by right.
Qed.

(** Splitting a body at line feeds gives back the lines it was joined
    from. *)
Lemma split_on_join_lines (lines : list jsstring) :
  lines <> [] -> Forall (fun l => LF ∉ l) lines ->
  split_on LF (join_lines lines) = lines.
Proof.
  induction lines as [|l rest IH]; intros Hne Hall; [done|].
  apply Forall_cons in Hall as [Hl Hrest].
  rewrite split_on_upto_after.
  destruct rest as [|l' rest'].
  - simpl. by rewrite upto_no_sep, after_no_sep.
  - change (join_lines (l :: l' :: rest')) with (l ++ LF :: join_lines (l' :: rest')).
    rewrite upto_app_sep, after_app_sep by done.
    f_equal. by apply IH.
Qed.

Lemma drop_spaces_head (s : jsstring) :
  drop_spaces s = [] \/
  exists c rest, drop_spaces s = c :: rest /\ is_js_space c = false.
Proof.
  induction s as [|c s IH]; simpl; [by left|].
  destruct (is_js_space c) eqn:Hc; [done|].
  right. eauto.
Qed.

Lemma drop_spaces_nil (s : jsstring) :
  drop_spaces s = [] <-> forallb is_js_space s = true.
Proof.
  induction s as [|c s IH]; simpl; [done|].
  destruct (is_js_space c); simpl; [done|]. split; discriminate.
Qed.

Lemma forallb_rev (f : N -> bool) (s : jsstring) :
  forallb f (rev s) = forallb f s.
Proof.
  induction s as [|c s IH]; simpl; [done|].
  rewrite forallb_app, IH. simpl. rewrite andb_true_r. apply andb_comm.
Qed.

(** A line trims to the empty string exactly when it is made of white
    space only. *)
Lemma trim_nil (s : jsstring) :
  trim s = [] <-> forallb is_js_space s = true.
Proof.
  unfold trim. split.
  - intros H. apply (f_equal (@rev N)) in H. rewrite rev_involutive in H.
    simpl in H. apply drop_spaces_nil in H. rewrite forallb_rev in H.
    destruct (drop_spaces_head s) as [Hd|(c & rest & Hd & Hc)].
    + by apply drop_spaces_nil.
    + rewrite Hd in H. simpl in H. rewrite Hc in H. discriminate.
  - intros H. apply drop_spaces_nil in H. rewrite H. reflexivity.
Qed.

Lemma nonblank_spec (line : jsstring) :
  nonblank line = negb (forallb is_js_space line).
Proof.
  unfold nonblank. f_equal.
  destruct (forallb is_js_space line) eqn:H.
  - apply bool_decide_eq_true. by apply trim_nil.
  - apply bool_decide_eq_false. intros Ht. apply trim_nil in Ht. congruence.
Qed.

(** ** Proxy-list refresh *)

Section RefreshFacts.

Variable cfg : Config.

(** The callback of [lines.map] uses the first two fields of a line that
    has a colon, and returns [null] for a line that has none. *)
Lemma line_to_proxy_fields (line : jsstring) :
  line_to_proxy cfg line =
  match after COLON line with
  | Some rest =>
      JStr (PROXY_TYPE cfg ++ js "://" ++ upto COLON line
              ++ js ":" ++ upto COLON rest)
  | None => JNull
  end.
Proof.
  unfold line_to_proxy. rewrite split_on_upto_after.
  destruct (after COLON line) as [rest|]; [|reflexivity].
  rewrite (split_on_upto_after COLON rest). reflexivity.
Qed.

Lemma parse_proxy_lines_spec (lines : list jsstring) :
  parse_proxy_lines cfg lines = omap (endpoint_of_line cfg) lines.
Proof.
  unfold parse_proxy_lines, filter_Boolean.
  induction lines as [|line lines IH]; [reflexivity|].
  cbn [List.filter omap list_omap]. unfold endpoint_of_line at 1.
  rewrite nonblank_spec.
  destruct (forallb is_js_space line); cbn [negb]; [exact IH|].
  cbn [map omap list_omap]. rewrite line_to_proxy_fields.
  destruct (after COLON line) as [rest|]; [|exact IH].
  replace (truthy _) with true; [by rewrite IH|].
  destruct (PROXY_TYPE cfg); reflexivity.
Qed.

End RefreshFacts.

(** C8.  A refresh keeps exactly the lines that are not blank and have at
    least two colon-delimited fields, in order, and builds each endpoint
    from the first two fields of its line, whatever follows them; the
    body of the two lines [1.2.3.4:8080:US] and [5.6.7.8:3128:DE] yields
    the two endpoints with ports 8080 and 3128. *)
Theorem refresh_uses_first_two_fields :
  (forall (cfg : Config) (lines : list jsstring) (pm : ProxyManager),
     Forall (fun l => LF ∉ l) lines ->
     join_lines lines <> [] ->
     refreshProxies cfg (fetched (join_lines lines)) pm =
     Normal (set_proxies (omap (endpoint_of_line cfg) lines) pm,
             [LogFetching;
              LogUpdated (length (omap (endpoint_of_line cfg) lines))]))
  /\ (forall pm : ProxyManager,
        proxies (refreshed default_config (fetched sample_body) pm) =
        [js "https://1.2.3.4:8080"; js "https://5.6.7.8:3128"]).
Proof.
  split.
  - intros cfg lines pm Hlf Hne.
    assert (Hlines : lines <> []) by (intros ->; by apply Hne).
    unfold refreshProxies, fetched. cbn [mbind completion_bind status data].
    replace (data_truthy _) with true
      by (simpl; destruct (join_lines lines); done).
    cbn [Z.eqb Pos.eqb andb data_split].
    rewrite split_on_join_lines by done.
    cbn [mbind completion_bind try_catch proxies set_proxies].
    by rewrite parse_proxy_lines_spec.
  - intros pm. reflexivity.
Qed.

(** The general part of C8 at the sample body, whose lines are
    [1.2.3.4:8080:US], [5.6.7.8:3128:DE] and the empty line after the last
    line feed. *)
Lemma refresh_uses_first_two_fields_witness :
  refreshProxies default_config (fetched sample_body) new_ProxyManager =
  Normal (set_proxies [js "https://1.2.3.4:8080"; js "https://5.6.7.8:3128"]
            new_ProxyManager,
          [LogFetching; LogUpdated 2]).
Proof.
  apply (proj1 refresh_uses_first_two_fields default_config
           [js "1.2.3.4:8080:US"; js "5.6.7.8:3128:DE"; []] new_ProxyManager).
  - apply (bool_decide_unpack _). vm_compute. exact I.
  - discriminate.
Defined.

(** C9.  A refresh always completes normally and never touches the
    cursor or the affinity cache.  When the fetch throws, the status is
    not 200, or the data is empty or is not text, the proxy sequence
    after the refresh is the sequence before it.  When the fetch returns
    status 200 with a non-empty text body, the sequence after the
    refresh is the list of endpoints of the body's lines, in order, and
    holds nothing of the sequence before. *)
Theorem refreshProxies_contained (cfg : Config)
    (fetch : completion AxiosResponse) (pm : ProxyManager) :
  exists (pm' : ProxyManager) (lg : list LogEvent),
    refreshProxies cfg fetch pm = Normal (pm', lg)
    /\ index pm' = index pm
    /\ domainCache pm' = domainCache pm
    /\ match fetch with
       | Throw _ => proxies pm' = proxies pm
       | Normal response =>
           match data response with
           | DataString body =>
               if (status response =? 200) && negb (bool_decide (body = []))
               then proxies pm'
                    = omap (endpoint_of_line cfg) (split_on LF body)
               else proxies pm' = proxies pm
           | DataOther _ => proxies pm' = proxies pm
           end
       end.
Proof.
  unfold refreshProxies.
  destruct fetch as [[st d]|e]; cbn [mbind completion_bind status data try_catch].
  - destruct (st =? 200); cbn [andb]; [|destruct d; eauto 10].
    destruct d as [body|b]; cbn [data_truthy].
    + destruct body as [|c body].
      * cbn. eauto 10.
      * cbn [truthy data_split mbind completion_bind try_catch].
        eexists. eexists. split; [reflexivity|].
        cbn [index domainCache proxies set_proxies].
        repeat split. rewrite bool_decide_eq_false_2 by done.
        apply parse_proxy_lines_spec.
    + destruct b; cbn; eauto 10.
  - eauto 10.
Qed.

(** ** Pool rotation *)

Lemma getNextProxy_empty (pm : ProxyManager) :
  proxies pm = [] -> getNextProxy pm = (JNull, pm).
Proof. intros H. unfold getNextProxy. by rewrite H. Qed.

(** With the cursor inside the sequence, selection returns the element
    under the cursor and advances the cursor once, modulo the length. *)
Lemma getNextProxy_in_range (pm : ProxyManager) :
  (index pm < length (proxies pm))%nat ->
  exists p, proxies pm !! index pm = Some p
    /\ getNextProxy pm =
       (JStr p, set_index ((index pm + 1) mod length (proxies pm))%nat pm).
Proof.
  intros Hlt. destruct (lookup_lt_is_Some_2 _ _ Hlt) as [p Hp].
  exists p. split; [done|]. unfold getNextProxy, array_get.
  rewrite Hp. destruct (Nat.eqb_spec (length (proxies pm)) 0); [lia|done].
Qed.

(** Whatever the cursor was, one selection on a non-empty sequence
    brings it back inside the sequence. *)
Lemma getNextProxy_rewraps (pm : ProxyManager) :
  proxies pm <> [] ->
  (index (snd (getNextProxy pm)) < length (proxies (snd (getNextProxy pm))))%nat.
Proof.
  intros Hne. unfold getNextProxy.
  destruct (Nat.eqb_spec (length (proxies pm)) 0) as [H0|Hn].
  - destruct (proxies pm); done.
  - simpl. by apply Nat.mod_upper_bound.
Qed.

(** With the cursor at or past the end of a non-empty sequence, which is
    where a refresh to a shorter list can leave it, selection returns
    [undefined]. *)
Lemma getNextProxy_out_of_range (pm : ProxyManager) :
  proxies pm <> [] ->
  (length (proxies pm) <= index pm)%nat ->
  fst (getNextProxy pm) = JUndefined.
Proof.
  intros Hne Hge. unfold getNextProxy, array_get.
  destruct (Nat.eqb_spec (length (proxies pm)) 0) as [H0|_].
  - destruct (proxies pm); done.
  - by rewrite lookup_ge_None_2.
Qed.

(** C4 at the state reached when a refresh shrinks the sequence below the
    cursor: the sequence has one element, the cursor is still 2, and the
    selection returns [undefined], which is neither the ["no proxy"]
    signal [null] nor an element of the sequence. *)
Theorem getNextProxy_stale_cursor :
  proxies pool_after_shrinking_refresh = [js "https://10.0.0.9:80"]
  /\ index pool_after_shrinking_refresh = 2%nat
  /\ fst (getNextProxy pool_after_shrinking_refresh) = JUndefined
  /\ index (snd (getNextProxy pool_after_shrinking_refresh)) = 0%nat.
Proof. repeat split; reflexivity. Qed.

(** ** Domain affinity *)

(** C6.  [setDomainForDomain domain p] at time [T] leaves the entry
    [{ proxy: p, timestamp: T }].  In every manager state where that is
    still the entry of [domain], a lookup at a time before [T + TTL]
    returns [p] and changes nothing; a lookup at [T + TTL] or later
    returns [null] and deletes the entry. *)
Theorem affinity_entry_lifetime (cfg : Config) (domain : jsstring) (p : jsval)
    (T : Z) :
  let ttl := PROXY_DOMAIN_CACHE_TTL cfg in
  let entry := {| proxy := p; timestamp := T |} in
  (forall pm0 : ProxyManager,
     domainCache (setDomainForDomain domain p T pm0) !! domain = Some entry)
  /\ (forall (pm : ProxyManager) (t : Z),
        domainCache pm !! domain = Some entry ->
        (t < T + ttl -> getProxyForDomain cfg domain t pm = (p, pm))
        /\ (T + ttl <= t ->
              getProxyForDomain cfg domain t pm
                = (JNull, removeDomainMapping domain pm)
              /\ domainCache (snd (getProxyForDomain cfg domain t pm))
                   !! domain = None)).
Proof.
  intros ttl entry. split.
  - intros pm0. apply lookup_insert_eq.
  - intros pm t Hentry. unfold getProxyForDomain. rewrite Hentry.
    cbn [timestamp proxy entry]. fold ttl. split; intros H.
    + destruct (Z.ltb_spec (t - T) ttl); [done|lia].
    + destruct (Z.ltb_spec (t - T) ttl); [lia|].
      split; [reflexivity|]. apply lookup_delete_eq.
Qed.

(** C6 at one recorded entry: with the default TTL of 600000 ms, an entry
    recorded at 1000 is served at 600999 and gone at 601000. *)
Lemma affinity_entry_lifetime_witness :
  let p := JStr (js "https://1.2.3.4:8080") in
  let recorded :=
    setDomainForDomain (js "example.com") p 1000 new_ProxyManager in
  getProxyForDomain default_config (js "example.com") 600999 recorded
    = (p, recorded)
  /\ getProxyForDomain default_config (js "example.com") 601000 recorded
     = (JNull, removeDomainMapping (js "example.com") recorded).
Proof.
  intros p recorded.
  pose proof (affinity_entry_lifetime default_config (js "example.com") p 1000)
    as [Hrec Hlook].
  split.
  - apply (proj1 (Hlook recorded 600999 (Hrec new_ProxyManager))).
    simpl. lia.
  - apply (proj2 (Hlook recorded 601000 (Hrec new_ProxyManager))).
    simpl. lia.
Defined.

(** ** The plain-HTTP handler *)

Lemma set_domainCache_same (pm : ProxyManager) :
  set_domainCache (domainCache pm) pm = pm.
Proof. by destruct pm. Qed.


Section HttpFacts.

Variable cfg : Config.
Variable url_parser : jsstring -> option URL.

(** Without a proxy the tunnelling agent cannot be built: [new URL(null)]
    and [new URL(undefined)] throw. *)
Lemma getTunnelAgent_no_proxy (targetUrl : jsstring) (proxyUrl : jsval) :
  proxyUrl = JNull \/ proxyUrl = JUndefined ->
  getTunnelAgent cfg url_parser targetUrl proxyUrl
  = Throw (TypeError "Invalid URL").
Proof.
  intros H. unfold getTunnelAgent.
  destruct (new_URL url_parser (JStr targetUrl)) as [u|e] eqn:Hu.
  - destruct H as [-> | ->]; reflexivity.
  - unfold new_URL in Hu.
    destruct (existsb _ _); [destruct (url_parser _)|]; by inversion Hu.
Qed.

(** With an empty pool and no entry for the domain, selection yields
    [null] and leaves the manager as it was. *)
Lemma select_candidate_empty_pool (attempt : nat) (domain : jsstring) (now : Z)
    (pm : ProxyManager) :
  proxies pm = [] ->
  domainCache pm !! domain = None ->
  select_candidate cfg attempt domain now pm = (JNull, FromRotation, pm).
Proof.
  intros Hpool Hcache. unfold select_candidate, getProxyForDomain.
  rewrite Hcache, delete_id, set_domainCache_same by done.
  cbn [truthy]. rewrite getNextProxy_empty by done. by destruct (_ =? _)%nat.
Qed.

Section Loop.

Variable w : HttpWorld.
Variable req : Request.
Variable targetUrl : URL.
Variable headers : Headers.

Let loop := retry_loop cfg url_parser w req targetUrl headers.


(** What one failed attempt does: the cache part of the [catch] block is
    applied to the manager as other handlers left it, and the loop goes
    on with the next attempt. *)
Lemma retry_loop_failed_attempt (fuel attempt : nat) (lastError : option JsError)
    (pm pm1 : ProxyManager) (lg : list LogEvent) (proxyUrl : jsval)
    (origin : Origin) (agent : option Agent) (error : JsError) :
  Z.of_nat attempt < MAX_RETRIES cfg ->
  select_candidate cfg attempt (hostname targetUrl) (clock_select w attempt) pm
    = (proxyUrl, origin, pm1) ->
  getTunnelAgent cfg url_parser (href targetUrl) proxyUrl = Normal agent ->
  axios w attempt
    {| opt_method := req_method req; opt_url := href targetUrl;
       opt_headers := headers; opt_timeout := 10000; opt_agent := agent |}
    = Throw error ->
  loop (S fuel) attempt lastError pm lg =
  loop fuel (S attempt) (Some error)
    (forget_failed cfg attempt (hostname targetUrl) proxyUrl
       (clock_settle w attempt) (meanwhile w attempt pm1))
    (lg ++ [LogHttpVia proxyUrl attempt]
        ++ [LogHttpError proxyUrl (err_message error)]).
Proof.
  intros Hlt Hsel Hagent Hax. subst loop. cbn [retry_loop].
  destruct (Z.ltb_spec (Z.of_nat attempt) (MAX_RETRIES cfg)); [|lia].
  rewrite Hsel, Hagent, Hax. by rewrite <- app_assoc.
Qed.

(** With an empty pool and no affinity entry every iteration selects
    [null], fails to build its agent, and leaves the manager as it was. *)
Lemma retry_loop_empty_pool (fuel attempt : nat) (lastError : option JsError)
    (pm : ProxyManager) (lg : list LogEvent) :
  proxies pm = [] ->
  domainCache pm !! hostname targetUrl = None ->
  (Z.to_nat (MAX_RETRIES cfg - Z.of_nat attempt) <= fuel)%nat ->
  loop fuel attempt lastError pm lg =
  Some {| res := bad_gateway
                   (if Z.of_nat attempt <? MAX_RETRIES cfg
                    then Some (TypeError "Invalid URL") else lastError);
          manager := pm;
          log := lg ++ log_no_proxy attempt
                         (Z.to_nat (MAX_RETRIES cfg - Z.of_nat attempt)) |}.
Proof.
  intros Hpool Hcache. subst loop. revert attempt lastError lg.
  assert (Hsel : forall attempt now,
            select_candidate cfg attempt (hostname targetUrl) now pm
            = (JNull, FromRotation, pm))
    by (intros; by apply select_candidate_empty_pool).
  assert (Hforget : forall attempt now,
            forget_failed cfg attempt (hostname targetUrl) JNull now pm = pm).
  { intros attempt now. unfold forget_failed, getProxyForDomain.
    destruct (_ =? _)%nat; [|done].
    rewrite Hcache, delete_id, set_domainCache_same by done.
    cbn. unfold removeDomainMapping.
    by rewrite delete_id, set_domainCache_same. }
  induction fuel as [|fuel IH]; intros attempt lastError lg Hfuel;
    cbn [retry_loop];
    destruct (Z.ltb_spec (Z.of_nat attempt) (MAX_RETRIES cfg)) as [Hlt|Hge];
    try lia.
  - replace (Z.to_nat _) with 0%nat by lia.
    unfold log_no_proxy. cbn. by rewrite app_nil_r.
  - rewrite Hsel, getTunnelAgent_no_proxy, Hforget by (by left).
    rewrite IH by lia.
    replace (Z.to_nat (MAX_RETRIES cfg - Z.of_nat attempt))
      with (S (Z.to_nat (MAX_RETRIES cfg - Z.of_nat (S attempt)))) by lia.
    f_equal. f_equal.
    + destruct (Z.ltb_spec (Z.of_nat (S attempt)) (MAX_RETRIES cfg)); done.
    + unfold log_no_proxy. cbn [seq flat_map]. by rewrite <- !app_assoc.
  - replace (Z.to_nat _) with 0%nat by lia.
    unfold log_no_proxy. cbn. by rewrite app_nil_r.
Qed.

End Loop.

End HttpFacts.


(** C1 on the code: with a valid target URL, an empty pool and no
    affinity entry for the domain, the handler does not answer at once
    with a 500.  It goes through all [MAX_RETRIES] iterations, each
    selecting [null] and failing on [new URL(null)], and then answers 502
    with the details of that error; no 500 head is written. *)
Theorem requestHandler_empty_pool_502 (cfg : Config)
    (url_parser : jsstring -> option URL) (w : HttpWorld) (req : Request)
    (pm : ProxyManager) (targetUrl : URL) :
  parse_target url_parser req = Normal targetUrl ->
  proxies pm = [] ->
  domainCache pm !! hostname targetUrl = None ->
  exists h, requestHandler cfg url_parser w req pm = Some h
    /\ res h = bad_gateway (if 0 <? MAX_RETRIES cfg
                            then Some (TypeError "Invalid URL") else None)
    /\ log h = log_no_proxy 0 (Z.to_nat (MAX_RETRIES cfg))
    /\ manager h = pm
    /\ forall headers, WriteHead 500 headers ∉ res h.
Proof.
  intros Hurl Hpool Hcache. unfold requestHandler, requestHandler_fuel.
  rewrite Hurl, retry_loop_empty_pool by (done || lia).
  eexists. split; [reflexivity|]. cbn [res log manager].
  replace (MAX_RETRIES cfg - Z.of_nat 0) with (MAX_RETRIES cfg) by lia.
  repeat split. intros headers Hin. unfold bad_gateway in Hin.
  apply elem_of_cons in Hin as [Hin|Hin]; [discriminate Hin|].
  apply list_elem_of_singleton in Hin. discriminate Hin.
Qed.

(** C1 at the defaults: a GET for [http://example.com/] against the
    manager as the constructor leaves it is answered 502 after five
    iterations. *)
Lemma requestHandler_empty_pool_502_witness :
  exists h,
    requestHandler default_config sample_url_parser world_all_fail
      sample_request new_ProxyManager = Some h
    /\ res h = bad_gateway (Some (TypeError "Invalid URL"))
    /\ log h = log_no_proxy 0 5
    /\ manager h = new_ProxyManager
    /\ forall headers, WriteHead 500 headers ∉ res h.
Proof.
  apply (requestHandler_empty_pool_502 default_config sample_url_parser
           world_all_fail sample_request new_ProxyManager
           {| href := js "http://example.com/"; protocol := js "http:";
              hostname := js "example.com"; port := [] |}).
  - vm_compute. reflexivity.
  - reflexivity.
  - reflexivity.
Defined.

(** C7 as the code has it.  The [catch] block looks at the attempt number
    and at the cache, not at where the candidate came from.  After
    attempt 0 it removes the entry of the domain exactly when that entry
    is unexpired and names the candidate that failed; an unexpired entry
    naming another proxy stays; an expired entry is dropped by the lookup
    itself.  After a later attempt the manager is not touched.  Entries
    of other domains, the sequence and the cursor never change. *)
Theorem forget_failed_checks_identity (cfg : Config) (attempt : nat)
    (domain : jsstring) (candidate : jsval) (now : Z) (pm : ProxyManager) :
  let pm' := forget_failed cfg attempt domain candidate now pm in
  (attempt <> 0%nat -> pm' = pm)
  /\ (attempt = 0%nat ->
      forall m, domainCache pm !! domain = Some m ->
        (now - timestamp m < PROXY_DOMAIN_CACHE_TTL cfg ->
           proxy m = candidate -> domainCache pm' !! domain = None)
        /\ (now - timestamp m < PROXY_DOMAIN_CACHE_TTL cfg ->
              proxy m <> candidate -> pm' = pm)
        /\ (PROXY_DOMAIN_CACHE_TTL cfg <= now - timestamp m ->
              domainCache pm' !! domain = None))
  /\ (forall other, other <> domain ->
        domainCache pm' !! other = domainCache pm !! other)
  /\ proxies pm' = proxies pm
  /\ index pm' = index pm.
Proof.
  intros pm'. subst pm'. unfold forget_failed, getProxyForDomain.
  destruct (Nat.eqb_spec attempt 0) as [->|Hne].
  - split; [done|]. split.
    + intros _ m Hm. rewrite Hm.
      destruct (Z.ltb_spec (now - timestamp m) (PROXY_DOMAIN_CACHE_TTL cfg))
        as [Hlt|Hge].
      * unfold strict_eq. split; [|split]; [intros _ Heq|intros _ Hneq|lia].
        -- rewrite bool_decide_eq_true_2 by done.
           cbn. apply lookup_delete_eq.
        -- by rewrite bool_decide_eq_false_2.
      * split; [|split]; [lia|lia|intros _].
        destruct (strict_eq JNull candidate); cbn;
          rewrite ?lookup_delete_eq; done.
    + split; [|split].
      * intros other Hother.
        destruct (domainCache pm !! domain) as [m|];
          [destruct (_ <? _)|]; destruct (strict_eq _ _); cbn;
          (rewrite ?lookup_delete_ne by (by intros ->)); done.
      * destruct (domainCache pm !! domain) as [m|];
          [destruct (_ <? _)|]; destruct (strict_eq _ _); done.
      * destruct (domainCache pm !! domain) as [m|];
          [destruct (_ <? _)|]; destruct (strict_eq _ _); done.
  - repeat split; done.
Qed.

(** C7 at one cache: the entry of [example.com] names another proxy than
    the candidate that failed on attempt 0, and it stays. *)
Lemma forget_failed_checks_identity_witness :
  let pm := setDomainForDomain (js "example.com")
              (JStr (js "https://5.6.7.8:3128")) 5000 new_ProxyManager in
  forget_failed default_config 0 (js "example.com")
    (JStr (js "https://1.2.3.4:8080")) 11000 pm = pm.
Proof.
  intros pm.
  apply (proj1 (proj2 (proj1 (proj2
           (forget_failed_checks_identity default_config 0 (js "example.com")
              (JStr (js "https://1.2.3.4:8080")) 11000 pm))
           eq_refl
           {| proxy := JStr (js "https://5.6.7.8:3128"); timestamp := 5000 |}
           eq_refl))).
  - simpl. lia.
  - discriminate.
Defined.

(** C7 as stated fails where it says that a candidate taken from pool
    rotation never costs the domain its entry.  The pool holds one proxy
    and the cache is empty, so attempt 0 takes the proxy from rotation;
    while it waits, another request succeeds through the same proxy and
    records it; attempt 0 then times out, finds the entry naming its own
    candidate, and removes it. *)
Lemma rotation_candidate_entry_removed :
  let p := js "https://1.2.3.4:8080" in
  let pm := refreshed default_config (fetched (js "1.2.3.4:8080" ++ [LF]))
              new_ProxyManager in
  let w := world_concurrent_success p in
  select_candidate default_config 0 (js "example.com") (clock_select w 0) pm
    = (JStr p, FromRotation, pm)
  /\ domainCache (meanwhile w 0 pm) !! js "example.com"
     = Some {| proxy := JStr p; timestamp := 5000 |}
  /\ domainCache
       (forget_failed default_config 0 (js "example.com") (JStr p)
          (clock_settle w 0) (meanwhile w 0 pm)) !! js "example.com" = None
  /\ (exists h,
        requestHandler default_config sample_url_parser w sample_request pm
          = Some h
        /\ domainCache (manager h) !! js "example.com" = None).
Proof.
  repeat split; try (vm_compute; reflexivity).
  eexists. split; [vm_compute; reflexivity|]. vm_compute. reflexivity.
Qed.

(** ** The CONNECT handler *)

Section ConnectFacts.

Variable cfg : Config.
Variable url_parser : jsstring -> option URL.
Variable net_isIP : jsstring -> Z.
Variable req_url : jsstring.
Variable head : jsstring.


(** A later attempt with budget left takes the next proxy of the pool
    and opens a socket to it. *)
Lemma attemptConnect_redial (attempt : nat) (now : Z) (t : Tunnel)
    (p : jsstring) (pm1 : ProxyManager) (u : URL) :
  attempt <> 0%nat ->
  Z.of_nat attempt < MAX_RETRIES cfg ->
  getNextProxy (t_manager t) = (JStr p, pm1) ->
  new_URL url_parser (JStr p) = Normal u ->
  attemptConnect cfg url_parser net_isIP req_url attempt now t =
  Normal (open_socket (dialled cfg net_isIP u (JStr p) attempt)
            (logger (LogConnectVia (JStr p) attempt) (with_manager pm1 t))).
Proof.
  intros Hne Hlt Hnext Hu. unfold attemptConnect.
  destruct (Z.leb_spec (MAX_RETRIES cfg) (Z.of_nat attempt)); [lia|].
  unfold select_candidate.
  destruct (Nat.eqb_spec attempt 0); [done|].
  rewrite Hnext, Hu. reflexivity.
Qed.

(** An accepted handshake: the first chunk of a dialling socket carries
    [200].  The client gets the success line, the retry listener stays on
    the proxy socket with the relay's listener after it, and the proxy is
    recorded for the domain. *)
Lemma accepted_handshake_wiring (now : Z) (t : Tunnel) (i : nat)
    (s : ProxySocket) (chunk : jsstring) :
  t_sockets t !! i = Some s ->
  ps_destroyed s = false ->
  ps_once_data s = true ->
  ps_on_error s = [RetryOnError] ->
  t_client t = fresh_client ->
  includes (js "200") chunk = true ->
  exists t' s',
    dispatch cfg url_parser net_isIP req_url head now (ProxyData i chunk) t
      = Normal t'
    /\ t_sockets t' !! i = Some s'
    /\ ps_destroyed s' = false
    /\ ps_piped s' = true
    /\ ps_on_error s' = [RetryOnError; TearDownClient]
    /\ ps_attempt s' = ps_attempt s
    /\ cs_written (t_client t') = [line_200]
    /\ cs_on_error (t_client t') = [GuardClient; TearDownProxy i]
    /\ domainCache (t_manager t') !! domain req_url
       = Some {| proxy := ps_proxyUrl s; timestamp := now |}
    /\ length (t_sockets t') = length (t_sockets t).
Proof.
  intros Hs Hlive Honce Hls Hclient H200. unfold dispatch.
  rewrite Hs, Hlive, Honce. unfold on_first_data. rewrite H200.
  destruct t as [pm client socks lg]. cbn [t_client t_sockets] in *.
  destruct s as [url att opts wr des oe od pi].
  cbn [ps_destroyed ps_once_data ps_on_error ps_attempt ps_proxyUrl] in *.
  subst client des od oe.
  unfold with_manager, with_client, with_socket, setDomainForDomain.
  destruct (0 <? length head)%nat;
    (eexists; eexists; split; [reflexivity|]);
    cbn [t_sockets t_client t_manager domainCache set_domainCache];
    rewrite ?list_lookup_alter_eq, ?Hs, ?length_alter, ?lookup_insert_eq;
    cbn; repeat split; done.
Qed.

(** A client-side error on an established tunnel destroys both sockets
    and opens no new one. *)
Lemma established_client_error_tears_down (now : Z) (t : Tunnel) (i : nat)
    (s : ProxySocket) (err : JsError) :
  t_sockets t !! i = Some s ->
  cs_destroyed (t_client t) = false ->
  cs_on_error (t_client t) = [GuardClient; TearDownProxy i] ->
  exists t',
    dispatch cfg url_parser net_isIP req_url head now (ClientError err) t
      = Normal t'
    /\ cs_destroyed (t_client t') = true
    /\ (ps_destroyed <$> t_sockets t' !! i) = Some true
    /\ length (t_sockets t') = length (t_sockets t).
Proof.
  intros Hs Hlive Hls. unfold dispatch. rewrite Hlive, Hls.
  eexists. split; [reflexivity|].
  cbn [fold_left run_client_listener]. unfold logger_unless_EPIPE.
  destruct (jsstr_eqb _ _); cbn;
    rewrite list_lookup_alter_eq, Hs, length_alter; done.
Qed.

End ConnectFacts.

(** C2 on the code: with retries configured, an empty pool and no
    affinity entry for the target, the CONNECT handler writes nothing to
    the client socket and does not close it.  It selects [null] and
    [new URL(null)] throws outside any [try]: the exception leaves the
    listener uncaught. *)
Theorem serverOnConnect_empty_pool_throws (cfg : Config)
    (url_parser : jsstring -> option URL) (net_isIP : jsstring -> Z)
    (req_url : jsstring) (now : Z) (pm : ProxyManager) :
  0 < MAX_RETRIES cfg ->
  proxies pm = [] ->
  domainCache pm !! domain req_url = None ->
  serverOnConnect cfg url_parser net_isIP req_url now pm
  = Throw (TypeError "Invalid URL").
Proof.
  intros Hmax Hpool Hcache. unfold serverOnConnect, attemptConnect.
  destruct (Z.leb_spec (MAX_RETRIES cfg) (Z.of_nat 0)); [lia|].
  cbn [t_manager]. rewrite select_candidate_empty_pool by done.
  reflexivity.
Qed.

(** C2 at the defaults: [CONNECT example.com:443] against the manager as
    the constructor leaves it. *)
Lemma serverOnConnect_empty_pool_throws_witness :
  serverOnConnect default_config sample_url_parser sample_isIP
    (js "example.com:443") 1000 new_ProxyManager
  = Throw (TypeError "Invalid URL").
Proof.
  apply serverOnConnect_empty_pool_throws.
  - reflexivity.
  - reflexivity.
  - reflexivity.
Defined.

(** C3 on the code: once the tunnel is up the proxy socket carries the
    retry listener of [attemptConnect] followed by the relay's tear-down
    listener.  When that socket fails with attempts left, both sockets
    are destroyed, and the retry listener also opens a socket to the next
    proxy of the pool for the same client request. *)
Theorem established_proxy_error_redials (cfg : Config)
    (url_parser : jsstring -> option URL) (net_isIP : jsstring -> Z)
    (req_url head : jsstring) (now : Z) (t : Tunnel) (i : nat)
    (s : ProxySocket) (err : JsError) (p : jsstring) (pm1 : ProxyManager)
    (u : URL) :
  t_sockets t !! i = Some s ->
  ps_destroyed s = false ->
  ps_piped s = true ->
  ps_on_error s = [RetryOnError; TearDownClient] ->
  Z.of_nat (ps_attempt s + 1) < MAX_RETRIES cfg ->
  getNextProxy (t_manager t) = (JStr p, pm1) ->
  new_URL url_parser (JStr p) = Normal u ->
  exists t',
    dispatch cfg url_parser net_isIP req_url head now (ProxyError i err) t
      = Normal t'
    /\ cs_destroyed (t_client t') = true
    /\ (ps_destroyed <$> t_sockets t' !! i) = Some true
    /\ length (t_sockets t') = S (length (t_sockets t))
    /\ t_sockets t' !! length (t_sockets t)
       = Some (dialled cfg net_isIP u (JStr p) (ps_attempt s + 1)).
Proof.
  intros Hs Hlive Hpiped Hls Hlt Hnext Hu. unfold dispatch.
  rewrite Hs, Hlive, Hls. cbn [emit_proxy_error run_proxy_listener].
  erewrite attemptConnect_redial; [|lia|exact Hlt| |exact Hu].
  2:{ unfold logger_unless_EPIPE. destruct (jsstr_eqb _ _); exact Hnext. }
  cbn [mbind completion_bind mret]. eexists. split; [reflexivity|].
  assert (Hi : (i < length (t_sockets t))%nat)
    by (by eapply lookup_lt_Some).
  unfold logger_unless_EPIPE. destruct (jsstr_eqb _ _); cbn.
  all: repeat split.
  all: rewrite ?length_app, ?length_alter; cbn; try lia.
  all: try (rewrite lookup_app_l, !list_lookup_alter_eq, Hs
              by (by rewrite !length_alter); done).
  all: rewrite lookup_app_r by (by rewrite !length_alter).
  all: by rewrite !length_alter, Nat.sub_diag.
Qed.

(** C3 from a fresh connection: the pool holds the two proxies of the
    sample list, the first one accepts [CONNECT example.com:443], and then
    its socket is reset.  A second socket is opened, to the second proxy,
    while the client socket is already destroyed. *)
Lemma established_proxy_error_redials_witness :
  let pm := refreshed default_config (fetched sample_body) new_ProxyManager in
  let target := js "example.com:443" in
  exists t,
    (t0 ← serverOnConnect default_config sample_url_parser sample_isIP
            target 1000 pm;
     deliver default_config sample_url_parser sample_isIP target []
       [(1001, ProxyConnected 0%nat); (1002, ProxyData 0%nat line_200)] t0)
    = Normal t
    /\ cs_written (t_client t) = [line_200]
    /\ exists t',
        dispatch default_config sample_url_parser sample_isIP target [] 1003
          (ProxyError 0%nat ECONNRESET) t = Normal t'
        /\ cs_destroyed (t_client t') = true
        /\ (ps_destroyed <$> t_sockets t' !! 0%nat) = Some true
        /\ length (t_sockets t') = 2%nat
        /\ (ps_proxyUrl <$> t_sockets t' !! 1%nat)
           = Some (JStr (js "https://5.6.7.8:3128"))
        /\ (ps_destroyed <$> t_sockets t' !! 1%nat) = Some false.
Proof.
  intros pm target. eexists. split; [vm_compute; reflexivity|].
  split; [reflexivity|].
  lazymatch goal with
  | |- exists t', dispatch _ _ _ _ _ _ _ ?T = _ /\ _ =>
      edestruct (established_proxy_error_redials default_config
                   sample_url_parser sample_isIP target [] 1003 T 0%nat)
        with (err := ECONNRESET)
        as (t' & Hrun & Hclient & Hold & Hlen & Hnew)
  end.
  - reflexivity.
  - reflexivity.
  - reflexivity.
  - reflexivity.
  - vm_compute. reflexivity.
  - vm_compute. reflexivity.
  - vm_compute. reflexivity.
  - exists t'. split; [exact Hrun|]. split; [exact Hclient|].
    split; [exact Hold|]. split; [exact Hlen|].
    cbn [length t_sockets] in Hnew. rewrite Hnew. split; reflexivity.
Defined.

(** ** Refused CONNECT handshakes *)

Lemma deliver_app (cfg : Config) (url_parser : jsstring -> option URL)
    (net_isIP : jsstring -> Z) (req_url head : jsstring)
    (l1 l2 : list (Z * SocketEvent)) (t : Tunnel) :
  deliver cfg url_parser net_isIP req_url head (l1 ++ l2) t =
  (t' ← deliver cfg url_parser net_isIP req_url head l1 t;
   deliver cfg url_parser net_isIP req_url head l2 t').
Proof.
  revert t. induction l1 as [|[now ev] l1 IH]; intros t; [reflexivity|].
  cbn [app deliver].
  destruct (dispatch _ _ _ _ _ now ev t) as [t1|e];
    cbn [mbind completion_bind]; [apply IH|reflexivity].
Qed.

Lemma alter_last {A} (f : A -> A) (old : list A) (s : A) :
  alter f (length old) (old ++ [s]) = old ++ [f s].
Proof.
  rewrite alter_app_r_alt, Nat.sub_diag by lia. reflexivity.
Qed.

Section RefusalFacts.

Variable cfg : Config.
Variable url_parser : jsstring -> option URL.
Variable net_isIP : jsstring -> Z.
Variable req_url : jsstring.
Variable head : jsstring.

Lemma getNextProxy_ready (pm : ProxyManager) :
  pool_ready url_parser pm = true ->
  exists p pm1, getNextProxy pm = (JStr p, pm1)
    /\ dialable url_parser (JStr p) = true
    /\ pool_ready url_parser pm1 = true
    /\ domainCache pm1 = domainCache pm.
Proof.
  unfold pool_ready. intros H. apply andb_true_iff in H as [Hi Hall].
  apply Nat.ltb_lt in Hi.
  destruct (getNextProxy_in_range pm Hi) as (p & Hp & Hnext).
  eexists p, _. split; [exact Hnext|]. split; [|split; [|reflexivity]].
  - rewrite forallb_forall in Hall. apply Hall.
    apply list_elem_of_In. by eapply list_elem_of_lookup_2.
  - cbn [proxies index set_index]. rewrite Hall, andb_true_r.
    apply Nat.ltb_lt, Nat.mod_upper_bound. lia.
Qed.

Lemma getProxyForDomain_frame (domain : jsstring) (now : Z) (pm : ProxyManager) :
  let pm1 := snd (getProxyForDomain cfg domain now pm) in
  proxies pm1 = proxies pm /\ index pm1 = index pm
  /\ (domainCache pm1 = domainCache pm
      \/ domainCache pm1 = delete domain (domainCache pm)).
Proof.
  unfold getProxyForDomain.
  destruct (domainCache pm !! domain) as [m|]; [destruct (_ <? _)|];
    cbn; auto.
Qed.

Lemma select_candidate_ready (attempt : nat) (domain : jsstring) (now : Z)
    (pm : ProxyManager) :
  pool_ready url_parser pm = true ->
  (attempt = 0%nat -> affinity_ready cfg url_parser domain now pm = true) ->
  exists c o pm1,
    select_candidate cfg attempt domain now pm = (c, o, pm1)
    /\ dialable url_parser c = true
    /\ pool_ready url_parser pm1 = true
    /\ (domainCache pm1 = domainCache pm
        \/ domainCache pm1 = delete domain (domainCache pm))
    /\ (attempt <> 0%nat -> domainCache pm1 = domainCache pm).
Proof.
  intros Hpool Haff. unfold select_candidate.
  destruct (Nat.eqb_spec attempt 0) as [H0|Hn].
  - specialize (Haff H0). unfold affinity_ready in Haff.
    destruct (getProxyForDomain_frame domain now pm) as (Hp & Hi & Hc).
    destruct (getProxyForDomain cfg domain now pm) as [cached pmA].
    cbn [fst snd] in *.
    assert (HpoolA : pool_ready url_parser pmA = true)
      by (unfold pool_ready in *; by rewrite Hp, Hi).
    destruct (truthy cached).
    + exists cached, FromAffinity, pmA. repeat split; try done.
    + destruct (getNextProxy_ready pmA HpoolA) as (p & pm1 & -> & Hd & Hr & Hc1).
      exists (JStr p), FromRotation, pm1. rewrite Hc1. repeat split; try done.
  - destruct (getNextProxy_ready pm Hpool) as (p & pm1 & -> & Hd & Hr & Hc1).
    exists (JStr p), FromRotation, pm1. repeat split; auto.
Qed.

Lemma attemptConnect_exhausted (attempt : nat) (now : Z) (t : Tunnel) :
  MAX_RETRIES cfg <= Z.of_nat attempt ->
  attemptConnect cfg url_parser net_isIP req_url attempt now t =
  Normal (with_client cs_end (with_client (cs_write line_502) t)).
Proof.
  intros H. unfold attemptConnect.
  destruct (Z.leb_spec (MAX_RETRIES cfg) (Z.of_nat attempt)); [done|lia].
Qed.

Lemma attemptConnect_dials (attempt : nat) (now : Z) (t : Tunnel) :
  Z.of_nat attempt < MAX_RETRIES cfg ->
  pool_ready url_parser (t_manager t) = true ->
  (attempt = 0%nat ->
   affinity_ready cfg url_parser (domain req_url) now (t_manager t) = true) ->
  exists c pm1 u lg,
    attemptConnect cfg url_parser net_isIP req_url attempt now t =
    Normal {| t_manager := pm1; t_client := t_client t;
              t_sockets := t_sockets t ++ [dialled cfg net_isIP u c attempt];
              t_log := lg |}
    /\ pool_ready url_parser pm1 = true
    /\ (domainCache pm1 = domainCache (t_manager t)
        \/ domainCache pm1 = delete (domain req_url) (domainCache (t_manager t)))
    /\ (attempt <> 0%nat -> domainCache pm1 = domainCache (t_manager t)).
Proof.
  intros Hlt Hpool Haff. unfold attemptConnect.
  destruct (Z.leb_spec (MAX_RETRIES cfg) (Z.of_nat attempt)); [lia|].
  destruct (select_candidate_ready attempt (domain req_url) now (t_manager t)
              Hpool Haff) as (c & o & pm1 & -> & Hd & Hr & Hc & Hc').
  unfold dialable in Hd.
  destruct (new_URL url_parser c) as [u|e]; [|discriminate].
  exists c, pm1, u. eexists. split; [reflexivity|]. auto.
Qed.

(** One refused handshake: the socket of attempt [k] connects, its first
    chunk has no [200], the socket is destroyed and attempt [k + 1]
    starts. *)
Lemma refusal_step (k : nat) (reply : Z * jsstring) (t : Tunnel)
    (old : list ProxySocket) (s : ProxySocket) :
  t_sockets t = old ++ [s] ->
  length old = k ->
  ps_destroyed s = false ->
  ps_once_data s = true ->
  ps_attempt s = k ->
  refuses reply = true ->
  deliver cfg url_parser net_isIP req_url head (refusal k reply) t =
  attemptConnect cfg url_parser net_isIP req_url (k + 1) (fst reply)
    {| t_manager := t_manager t; t_client := t_client t;
       t_sockets := old ++ [ps_destroy (ps_consume_once
                                          (ps_write (connectRequest req_url) s))];
       t_log := t_log t ++ [LogConnectFailed (ps_proxyUrl s) k (snd reply)] |}.
Proof.
  intros Hsocks Hlen Hlive Honce Hatt Hrefuse.
  destruct t as [pm client socks lg]. cbn [t_sockets] in Hsocks. subst socks.
  unfold refuses in Hrefuse. apply negb_true_iff in Hrefuse.
  subst k. unfold refusal. cbn [deliver dispatch t_sockets fst snd].
  rewrite list_lookup_middle by done. rewrite Hlive.
  cbn [mbind completion_bind with_socket t_sockets t_manager t_client t_log].
  rewrite alter_last, list_lookup_middle by done.
  set (s1 := ps_write (connectRequest req_url) s).
  assert (Hs1 : ps_destroyed s1 = false /\ ps_once_data s1 = true
                /\ ps_attempt s1 = ps_attempt s
                /\ ps_proxyUrl s1 = ps_proxyUrl s)
    by (subst s1; unfold ps_write; rewrite Hlive; done).
  destruct Hs1 as (-> & -> & Ha1 & Hu1).
  unfold on_first_data. rewrite Hrefuse, Ha1, Hu1, Hatt.
  unfold with_socket, logger. cbn [t_sockets t_manager t_client t_log].
  rewrite !alter_last. fold s1.
  destruct (attemptConnect _ _ _ _ _ _ _); reflexivity.
Qed.

(** From attempt [k] on, every handshake is refused until the budget is
    spent: the 502 is written, the client socket is ended, every proxy
    socket is destroyed and the cache is as it was. *)
Lemma refusals_exhaust (replies : list (Z * jsstring)) :
  forall (k : nat) (t : Tunnel) (old : list ProxySocket) (s : ProxySocket),
    t_sockets t = old ++ [s] ->
    length old = k ->
    Forall (fun x => ps_destroyed x = true) old ->
    ps_destroyed s = false ->
    ps_once_data s = true ->
    ps_attempt s = k ->
    t_client t = fresh_client ->
    pool_ready url_parser (t_manager t) = true ->
    Z.of_nat k < MAX_RETRIES cfg ->
    length replies = Z.to_nat (MAX_RETRIES cfg - Z.of_nat k) ->
    forallb refuses replies = true ->
    exists t',
      deliver cfg url_parser net_isIP req_url head (refusals k replies) t
        = Normal t'
      /\ t_client t' = cs_end (cs_write line_502 fresh_client)
      /\ domainCache (t_manager t') = domainCache (t_manager t)
      /\ Forall (fun x => ps_destroyed x = true) (t_sockets t')
      /\ length (t_sockets t') = (k + length replies)%nat.
Proof.
  induction replies as [|r rest IH];
    intros k t old s Hsocks Hlen Hold Hlive Honce Hatt Hclient Hpool Hlt Hn Hall.
  - cbn [length] in Hn. lia.
  - cbn [forallb] in Hall. apply andb_true_iff in Hall as [Hr Hrest].
    cbn [refusals length] in *. rewrite deliver_app.
    rewrite (refusal_step k r t old s) by done.
    rewrite Nat.add_1_r.
    set (s' := ps_destroy (ps_consume_once (ps_write (connectRequest req_url) s))).
    assert (Hold' : Forall (fun x => ps_destroyed x = true) (old ++ [s']))
      by (apply Forall_app; split; [done|by repeat constructor]).
    destruct (Z.le_gt_cases (MAX_RETRIES cfg) (Z.of_nat (S k))) as [Hend|Hmore].
    + rewrite attemptConnect_exhausted by done.
      cbn [mbind completion_bind].
      destruct rest as [|r' rest']; [|cbn [length] in Hn; lia].
      cbn [refusals deliver]. eexists. split; [reflexivity|].
      unfold with_client. cbn [t_client t_manager t_sockets].
      rewrite Hclient. repeat split; try done.
      rewrite length_app. cbn. lia.
    + edestruct (attemptConnect_dials (S k) (fst r))
        as (c & pm1 & u & lg & -> & Hpool1 & _ & Hcache);
        [exact Hmore| |intros [=]|]; [exact Hpool|].
      cbn [mbind completion_bind].
      edestruct (IH (S k)) as (t' & -> & Hc' & Hcache' & Hsocks' & Hlen');
        [reflexivity| |exact Hold'|reflexivity|reflexivity|reflexivity
        |exact Hclient|exact Hpool1|exact Hmore| |exact Hrest|].
      * cbn [t_sockets]. rewrite length_app. cbn. lia.
      * lia.
      * exists t'. split; [reflexivity|]. split; [exact Hc'|].
        split; [|split; [exact Hsocks'|lia]].
        rewrite Hcache'. cbn [t_manager]. by apply Hcache.
Qed.

(** [new URL] throws one error only. *)
Lemma not_dialable_throws (v : jsval) :
  dialable url_parser v = false ->
  new_URL url_parser v = Throw (TypeError "Invalid URL").
Proof.
  unfold dialable, new_URL. destruct (existsb _ _); [|done].
  by destruct (url_parser _).
Qed.

(** Attempt 0 with an unexpired entry for the target: the proxy of the
    entry is dialled and the manager is not changed. *)
Lemma attemptConnect_affinity_hit (now : Z) (t : Tunnel) (m : Mapping)
    (u : URL) :
  0 < MAX_RETRIES cfg ->
  domainCache (t_manager t) !! domain req_url = Some m ->
  now - timestamp m < PROXY_DOMAIN_CACHE_TTL cfg ->
  truthy (proxy m) = true ->
  new_URL url_parser (proxy m) = Normal u ->
  select_candidate cfg 0 (domain req_url) now (t_manager t)
    = (proxy m, FromAffinity, t_manager t)
  /\ attemptConnect cfg url_parser net_isIP req_url 0 now t
     = Normal {| t_manager := t_manager t; t_client := t_client t;
                 t_sockets := t_sockets t ++ [dialled cfg net_isIP u (proxy m) 0];
                 t_log := t_log t ++ [LogConnectVia (proxy m) 0] |}.
Proof.
  intros Hmax Hm Hfresh Htruthy Hu.
  assert (Hsel : select_candidate cfg 0 (domain req_url) now (t_manager t)
                 = (proxy m, FromAffinity, t_manager t)).
  { unfold select_candidate, getProxyForDomain. cbn [Nat.eqb]. rewrite Hm.
    destruct (Z.ltb_spec (now - timestamp m) (PROXY_DOMAIN_CACHE_TTL cfg));
      [|lia].
    by rewrite Htruthy. }
  split; [exact Hsel|]. unfold attemptConnect.
  destruct (Z.leb_spec (MAX_RETRIES cfg) (Z.of_nat 0)); [lia|].
  rewrite Hsel, Hu. cbn [mbind completion_bind].
  by destruct t.
Qed.

End RefusalFacts.

(** C5 on the code, in the two ways the handler breaks it.

    First, the retry that follows a refused handshake is not guarded:
    when attempts are left and the next proxy of the rotation is one
    that [new URL] does not accept ([null], [undefined], or an endpoint
    built from a line that is no address), the exception leaves the
    ['data'] listener; the client socket gets no 502 and is not closed.

    Second, with an unexpired entry for the target in the cache, attempt
    0 takes the proxy of that entry; when it and the proxies after it all
    refuse, the 502 is written and the client socket ended, and the entry
    naming the proxy that refused is still in the cache. *)
Theorem connect_refusals_break (cfg : Config)
    (url_parser : jsstring -> option URL) (net_isIP : jsstring -> Z)
    (req_url head : jsstring) :
  (forall (now : Z) (t : Tunnel) (k : nat) (s : ProxySocket)
          (chunk : jsstring) (v : jsval) (pm1 : ProxyManager),
     t_sockets t !! k = Some s ->
     ps_destroyed s = false ->
     ps_once_data s = true ->
     Z.of_nat (ps_attempt s + 1) < MAX_RETRIES cfg ->
     includes (js "200") chunk = false ->
     getNextProxy (t_manager t) = (v, pm1) ->
     dialable url_parser v = false ->
     dispatch cfg url_parser net_isIP req_url head now (ProxyData k chunk) t
     = Throw (TypeError "Invalid URL"))
  /\ (forall (now : Z) (pm : ProxyManager) (m : Mapping) (u : URL)
             (replies : list (Z * jsstring)),
        0 < MAX_RETRIES cfg ->
        pool_ready url_parser pm = true ->
        domainCache pm !! domain req_url = Some m ->
        now - timestamp m < PROXY_DOMAIN_CACHE_TTL cfg ->
        truthy (proxy m) = true ->
        new_URL url_parser (proxy m) = Normal u ->
        length replies = Z.to_nat (MAX_RETRIES cfg) ->
        forallb refuses replies = true ->
        select_candidate cfg 0 (domain req_url) now pm
          = (proxy m, FromAffinity, pm)
        /\ exists t,
             (t0 ← serverOnConnect cfg url_parser net_isIP req_url now pm;
              deliver cfg url_parser net_isIP req_url head
                (refusals 0 replies) t0)
             = Normal t
             /\ cs_written (t_client t) = [line_502]
             /\ cs_ended (t_client t) = true
             /\ domainCache (t_manager t) !! domain req_url = Some m).
Proof.
  split.
  - intros now t k s chunk v pm1 Hs Hlive Honce Hlt Hrefuse Hnext Hbad.
    unfold dispatch. rewrite Hs, Hlive, Honce.
    unfold on_first_data. rewrite Hrefuse. unfold attemptConnect.
    destruct (Z.leb_spec (MAX_RETRIES cfg) (Z.of_nat (ps_attempt s + 1)));
      [lia|].
    unfold select_candidate.
    destruct (Nat.eqb_spec (ps_attempt s + 1) 0); [lia|].
    cbn [t_manager with_socket logger]. rewrite Hnext.
    by rewrite (not_dialable_throws url_parser v Hbad).
  - intros now pm m u replies Hmax Hpool Hm Hfresh Htruthy Hu Hn Hall.
    unfold serverOnConnect.
    edestruct (attemptConnect_affinity_hit cfg url_parser net_isIP req_url now)
      as [Hsel ->]; [exact Hmax|exact Hm|exact Hfresh|exact Htruthy|exact Hu|].
    split; [exact Hsel|].
    cbn [mbind completion_bind t_sockets t_client t_manager t_log app].
    lazymatch goal with
    | |- context [deliver _ _ _ _ _ _ ?T] =>
        destruct (refusals_exhaust cfg url_parser net_isIP req_url head replies
                    0 T [] (dialled cfg net_isIP u (proxy m) 0))
          as (t' & -> & Hc' & Hcache' & _);
          [reflexivity|reflexivity|constructor|reflexivity|reflexivity
          |reflexivity|reflexivity|exact Hpool|cbn; lia
          |rewrite Hn; f_equal; lia|exact Hall|]
    end.
    exists t'. split; [reflexivity|]. rewrite Hc', Hcache'.
    cbn [t_manager]. repeat split. exact Hm.
Qed.

(** C5 at the defaults for [CONNECT example.com:443].  On the pool with
    the comment line the first proxy answers 407 and the retry throws;
    on the sample pool with [https://1.2.3.4:8080] recorded for
    [example.com], five answers of 407 end in the 502 and the entry is
    still there. *)
Lemma connect_refusals_break_witness :
  (exists t0,
     serverOnConnect default_config sample_url_parser sample_isIP
       (js "example.com:443") 1000 pool_with_comment_line = Normal t0
     /\ cs_written (t_client t0) = []
     /\ dispatch default_config sample_url_parser sample_isIP
          (js "example.com:443") [] 1002 (ProxyData 0%nat reply_407) t0
        = Throw (TypeError "Invalid URL"))
  /\ (exists t,
        (t0 ← serverOnConnect default_config sample_url_parser sample_isIP
                (js "example.com:443") 1000 sample_pool_with_affinity;
         deliver default_config sample_url_parser sample_isIP
           (js "example.com:443") []
           (refusals 0 (repeat (1500, reply_407) 5)) t0)
        = Normal t
        /\ cs_written (t_client t) = [line_502]
        /\ domainCache (t_manager t) !! js "example.com"
           = Some {| proxy := JStr (js "https://1.2.3.4:8080");
                     timestamp := 900 |}).
Proof.
  pose proof (connect_refusals_break default_config sample_url_parser
                sample_isIP (js "example.com:443") []) as [Hthrow Hstays].
  split.
  - eexists. split; [vm_compute; reflexivity|]. split; [reflexivity|].
    lazymatch goal with
    | |- dispatch _ _ _ _ _ _ _ ?T = _ =>
        eapply (Hthrow 1002 T 0%nat)
    end.
    + reflexivity.
    + reflexivity.
    + reflexivity.
    + vm_compute. reflexivity.
    + vm_compute. reflexivity.
    + vm_compute. reflexivity.
    + vm_compute. reflexivity.
  - edestruct (Hstays 1000 sample_pool_with_affinity
                 {| proxy := JStr (js "https://1.2.3.4:8080"); timestamp := 900 |})
      with (replies := repeat (1500, reply_407) 5)
      as (_ & t & Hrun & Hw & _ & Hc).
    + reflexivity.
    + vm_compute. reflexivity.
    + vm_compute. reflexivity.
    + vm_compute. reflexivity.
    + reflexivity.
    + vm_compute. reflexivity.
    + reflexivity.
    + vm_compute. reflexivity.
    + exists t. split; [exact Hrun|]. split; [exact Hw|exact Hc].
Defined.

(** * Further properties *)

(** ** Rotation *)

Lemma set_index_same (pm : ProxyManager) : set_index (index pm) pm = pm.
Proof. by destruct pm. Qed.

Lemma rotate_app (a b : nat) (pm : ProxyManager) :
  rotate (a + b) pm =
  (fst (rotate a pm) ++ fst (rotate b (snd (rotate a pm))),
   snd (rotate b (snd (rotate a pm)))).
Proof.
  revert pm. induction a as [|a IH]; intros pm; cbn [rotate Nat.add].
  - cbn [fst snd app]. by destruct (rotate b pm).
  - destruct (getNextProxy pm) as [p pm1]. rewrite IH.
    destruct (rotate a pm1) as [ps pm2]. reflexivity.
Qed.

(** Selections that stay before the end of the sequence return the
    elements from the cursor on. *)
Lemma rotate_segment (k : nat) (pm : ProxyManager) :
  (index pm < length (proxies pm))%nat ->
  (index pm + k <= length (proxies pm))%nat ->
  rotate k pm =
  (map JStr (take k (drop (index pm) (proxies pm))),
   set_index ((index pm + k) mod length (proxies pm))%nat pm).
Proof.
  revert pm. induction k as [|k IH]; intros pm Hi Hk.
  - cbn [rotate take map].
    by rewrite Nat.add_0_r, Nat.mod_small, set_index_same.
  - cbn [rotate].
    destruct (getNextProxy_in_range pm Hi) as (p & Hp & ->).
    rewrite (drop_S _ _ _ Hp). cbn [take map].
    destruct k as [|k].
    + cbn [rotate take map]. reflexivity.
    + rewrite IH; cbn [proxies index set_index].
      * rewrite (Nat.mod_small (index pm + 1)) by lia.
        replace (index pm + 1)%nat with (S (index pm)) by lia.
        replace (S (index pm) + S k)%nat with (index pm + S (S k))%nat by lia.
        reflexivity.
      * rewrite Nat.mod_small by lia. lia.
      * rewrite Nat.mod_small by lia. lia.
Qed.

(** X1.  With the cursor inside a sequence of [n] proxies, [n] selections
    in a row return every proxy once, from the cursor to the end and then
    from the start up to the cursor, and leave the manager as it was. *)
Theorem rotation_full_cycle (pm : ProxyManager) :
  (index pm < length (proxies pm))%nat ->
  rotate (length (proxies pm)) pm =
  (map JStr (drop (index pm) (proxies pm) ++ take (index pm) (proxies pm)), pm).
Proof.
  intros Hi.
  set (n := length (proxies pm)). set (i := index pm).
  replace n with ((n - i) + i)%nat at 1 by lia.
  rewrite rotate_app, (rotate_segment (n - i) pm) by lia.
  cbn [fst snd]. fold n i.
  replace (i + (n - i))%nat with n by lia. rewrite Nat.Div0.mod_same.
  rewrite rotate_segment; cbn [proxies index set_index]; fold n; try lia.
  cbn [fst snd]. rewrite Nat.add_0_l, Nat.mod_small by lia.
  rewrite drop_0, map_app. f_equal.
  - do 2 f_equal. apply take_ge. rewrite length_drop. lia.
  - unfold i. by destruct pm.
Qed.

(** X1 on the pool of the sample list with the cursor on its second
    proxy. *)
Lemma rotation_full_cycle_witness :
  let pm := snd (getNextProxy
                   (refreshed default_config (fetched sample_body)
                      new_ProxyManager)) in
  rotate 2 pm =
  ([JStr (js "https://5.6.7.8:3128"); JStr (js "https://1.2.3.4:8080")], pm).
Proof.
  intros pm. apply (rotation_full_cycle pm). vm_compute. lia.
Defined.

(** X2.  On a non-empty sequence a selection never returns [null]: it
    returns the element under the cursor when the cursor is inside the
    sequence and [undefined] when it is not, and in both cases the
    cursor is inside the sequence afterwards, so the selection after it
    returns an element. *)
Theorem selection_on_nonempty_pool (pm : ProxyManager) :
  proxies pm <> [] ->
  let '(first, pm1) := getNextProxy pm in
  first <> JNull
  /\ (first = JUndefined <-> (length (proxies pm) <= index pm)%nat)
  /\ (forall p, first = JStr p -> proxies pm !! index pm = Some p)
  /\ proxies pm1 = proxies pm
  /\ domainCache pm1 = domainCache pm
  /\ (index pm1 < length (proxies pm))%nat
  /\ exists p, fst (getNextProxy pm1) = JStr p /\ p ∈ proxies pm.
Proof.
  intros Hne.
  assert (Hn : (0 < length (proxies pm))%nat)
    by (destruct (proxies pm); [done|cbn; lia]).
  pose proof (getNextProxy_rewraps pm Hne) as Hwrap.
  unfold getNextProxy in *.
  destruct (Nat.eqb_spec (length (proxies pm)) 0) as [|_]; [lia|].
  cbn [fst snd proxies index set_index] in *.
  split; [|split; [|split; [|split; [|split; [|split]]]]]; try done.
  - unfold array_get. by destruct (proxies pm !! index pm).
  - unfold array_get. destruct (proxies pm !! index pm) as [p|] eqn:Hp.
    + apply lookup_lt_Some in Hp. split; [done|lia].
    + apply lookup_ge_None in Hp. done.
  - intros p. unfold array_get.
    destruct (proxies pm !! index pm); congruence.
  - destruct (lookup_lt_is_Some_2 _ _ Hwrap) as [p Hp].
    exists p. destruct (Nat.eqb_spec (length (proxies pm)) 0) as [|_]; [lia|].
    cbn [fst]. unfold array_get. rewrite Hp. split; [done|].
    by eapply list_elem_of_lookup_2.
Qed.

(** X2 on the pool a shrinking refresh left with a stale cursor. *)
Lemma selection_on_nonempty_pool_witness :
  fst (getNextProxy pool_after_shrinking_refresh) <> JNull
  /\ fst (getNextProxy (snd (getNextProxy pool_after_shrinking_refresh)))
     = JStr (js "https://10.0.0.9:80").
Proof.
  pose proof (selection_on_nonempty_pool pool_after_shrinking_refresh) as H.
  destruct (getNextProxy pool_after_shrinking_refresh) as [first pm1] eqn:E.
  destruct H as (Hnull & _); [discriminate|].
  split; [exact Hnull|].
  injection E as <- <-. reflexivity.
Defined.

(** ** The affinity cache *)

(** X3.  A lookup never changes the sequence, the cursor or the entry of
    another domain; the only change it can make is to delete the entry
    of the domain it was asked about.  When it returns something other
    than [null] it has changed nothing, and what it returns is the proxy
    of an entry of that domain whose age is below the TTL. *)
Theorem lookup_effects (cfg : Config) (domain : jsstring) (now : Z)
    (pm : ProxyManager) :
  let '(found, pm') := getProxyForDomain cfg domain now pm in
  proxies pm' = proxies pm
  /\ index pm' = index pm
  /\ (forall other, other <> domain ->
        domainCache pm' !! other = domainCache pm !! other)
  /\ (pm' = pm \/ domainCache pm' !! domain = None)
  /\ (found <> JNull ->
        pm' = pm
        /\ exists T,
             domainCache pm !! domain = Some {| proxy := found; timestamp := T |}
             /\ now - T < PROXY_DOMAIN_CACHE_TTL cfg).
Proof.
  unfold getProxyForDomain.
  destruct (domainCache pm !! domain) as [[p T]|] eqn:Hm;
    [cbn [timestamp proxy];
     destruct (Z.ltb_spec (now - T) (PROXY_DOMAIN_CACHE_TTL cfg))|];
    cbn [proxies index domainCache set_domainCache];
    repeat split; try done; eauto;
    try (intros other Hother; by apply lookup_delete_ne);
    try (right; apply lookup_delete_eq).
Qed.

(** X4.  Recording a domain again replaces its entry, and the lifetime of
    the entry is counted from the later recording: until [T2 + TTL] a
    lookup returns the second proxy, whatever the first recording was. *)
Theorem record_again_renews (cfg : Config) (domain : jsstring)
    (p1 p2 : jsval) (T1 T2 t : Z) (pm : ProxyManager) :
  t < T2 + PROXY_DOMAIN_CACHE_TTL cfg ->
  setDomainForDomain domain p2 T2 (setDomainForDomain domain p1 T1 pm)
    = setDomainForDomain domain p2 T2 pm
  /\ getProxyForDomain cfg domain t
       (setDomainForDomain domain p2 T2 (setDomainForDomain domain p1 T1 pm))
     = (p2, setDomainForDomain domain p2 T2 pm).
Proof.
  intros Ht.
  assert (Heq : setDomainForDomain domain p2 T2
                  (setDomainForDomain domain p1 T1 pm)
                = setDomainForDomain domain p2 T2 pm).
  { unfold setDomainForDomain, set_domainCache. cbn [proxies index domainCache].
    by rewrite insert_insert_eq. }
  split; [exact Heq|]. rewrite Heq.
  unfold getProxyForDomain, setDomainForDomain.
  cbn [domainCache set_domainCache]. rewrite lookup_insert_eq.
  cbn [timestamp proxy].
  destruct (Z.ltb_spec (t - T2) (PROXY_DOMAIN_CACHE_TTL cfg)); [done|lia].
Qed.

(** X4 with the default TTL: an entry recorded at 1000 and again at
    500000 is served at 1000000, after the first recording has expired. *)
Lemma record_again_renews_witness :
  getProxyForDomain default_config (js "example.com") 1000000
    (setDomainForDomain (js "example.com") (JStr (js "https://5.6.7.8:3128"))
       500000
       (setDomainForDomain (js "example.com")
          (JStr (js "https://1.2.3.4:8080")) 1000 new_ProxyManager))
  = (JStr (js "https://5.6.7.8:3128"),
     setDomainForDomain (js "example.com") (JStr (js "https://5.6.7.8:3128"))
       500000 new_ProxyManager).
Proof.
  apply (proj2 (record_again_renews default_config (js "example.com")
                  (JStr (js "https://1.2.3.4:8080"))
                  (JStr (js "https://5.6.7.8:3128")) 1000 500000 1000000
                  new_ProxyManager ltac:(simpl; lia))).
Defined.

(** X5.  After a flush no domain has a proxy, whatever was recorded and
    however recently; after the removal of one mapping that domain has
    none and every other domain is served as before.  Neither touches
    the sequence or the cursor, so the next selection is the same. *)
Theorem flush_and_remove (cfg : Config) (domain : jsstring) (now : Z)
    (pm : ProxyManager) :
  getProxyForDomain cfg domain now (flushDomainCache pm)
    = (JNull, flushDomainCache pm)
  /\ getProxyForDomain cfg domain now (removeDomainMapping domain pm)
     = (JNull, removeDomainMapping domain pm)
  /\ (forall other, other <> domain ->
        fst (getProxyForDomain cfg other now (removeDomainMapping domain pm))
        = fst (getProxyForDomain cfg other now pm))
  /\ fst (getNextProxy (flushDomainCache pm)) = fst (getNextProxy pm)
  /\ fst (getNextProxy (removeDomainMapping domain pm)) = fst (getNextProxy pm).
Proof.
  unfold getProxyForDomain, flushDomainCache, removeDomainMapping, getNextProxy.
  cbn [domainCache set_domainCache proxies index].
  rewrite lookup_empty, lookup_delete_eq, delete_empty, delete_delete_eq.
  repeat split.
  - intros other Hother. rewrite lookup_delete_ne by done.
    destruct (domainCache pm !! other) as [m|]; [|done].
    by destruct (_ <? _).
  - by destruct (_ =? _)%nat.
  - by destruct (_ =? _)%nat.
Qed.

(** ** Refresh and the sequence it builds *)

Lemma upto_sub (sep c : N) (s : jsstring) : c ∈ upto sep s -> c ∈ s.
Proof.
  induction s as [|x s IH]; cbn [upto]; [done|].
  destruct (N.eqb x sep); [intros H; by apply elem_of_nil in H|].
  intros H. apply elem_of_cons in H as [->|H]; [left|right; auto].
Qed.

Lemma upto_lacks_sep (sep : N) (s : jsstring) : sep ∉ upto sep s.
Proof.
  induction s as [|x s IH]; cbn [upto];
    [intros H; by apply elem_of_nil in H|].
  destruct (N.eqb_spec x sep) as [->|Hne];
    [intros H; by apply elem_of_nil in H|].
  intros H. apply elem_of_cons in H as [->|H]; [done|auto].
Qed.

Lemma after_sub (sep c : N) (s rest : jsstring) :
  after sep s = Some rest -> c ∈ rest -> c ∈ s.
Proof.
  induction s as [|x s IH]; cbn [after]; [done|].
  destruct (N.eqb x sep); [intros [= ->] H; by right|].
  intros Ha Hc. right. auto.
Qed.

Lemma after_Some_has_sep (sep : N) (s rest : jsstring) :
  after sep s = Some rest -> sep ∈ s.
Proof.
  induction s as [|x s IH]; cbn [after]; [done|].
  destruct (N.eqb_spec x sep) as [->|_]; [intros _; left|].
  intros Ha. right. auto.
Qed.

(** The fields of a split are free of the separator and made of code
    units of the string. *)
Lemma split_on_fields (sep : N) (s f : jsstring) :
  f ∈ split_on sep s -> (sep ∉ f) /\ forall c, c ∈ f -> c ∈ s.
Proof.
  remember (length s) as n eqn:Hn. revert s f Hn.
  induction (lt_wf n) as [n _ IH]. intros s f -> Hf.
  rewrite split_on_upto_after in Hf.
  apply elem_of_cons in Hf as [->|Hf].
  - split; [apply upto_lacks_sep|]. intros c. apply upto_sub.
  - destruct (after sep s) as [rest|] eqn:Ha; [|by apply elem_of_nil in Hf].
    assert (Hlen : (length rest < length s)%nat).
    { clear -Ha. revert rest Ha. induction s as [|x s IHs]; cbn [after]; [done|].
      intros rest. destruct (N.eqb x sep).
      - intros [= ->]. cbn. lia.
      - intros Ha. specialize (IHs _ Ha). cbn. lia. }
    destruct (IH _ Hlen rest f eq_refl Hf) as [H1 H2].
    split; [done|]. intros c Hc. eapply after_sub; eauto.
Qed.

Section RefreshMore.

Variable cfg : Config.

(** A refresh that fetched a non-empty text body with status 200. *)
Lemma refreshed_fetched (body : jsstring) (pm : ProxyManager) :
  body <> [] ->
  refreshed cfg (fetched body) pm
  = set_proxies (omap (endpoint_of_line cfg) (split_on LF body)) pm.
Proof.
  intros Hne. unfold refreshed, refreshProxies, fetched.
  cbn [mbind completion_bind status data].
  replace (data_truthy _) with true by (simpl; destruct body; done).
  cbn [Z.eqb Pos.eqb andb data_split mbind completion_bind try_catch].
  by rewrite parse_proxy_lines_spec.
Qed.

Lemma length_omap_le {A B} (f : A -> option B) (l : list A) :
  (length (omap f l) <= length l)%nat.
Proof.
  induction l as [|x l IH]; cbn; [lia|]. destruct (f x); cbn; lia.
Qed.

Lemma endpoint_of_line_shape (line e : jsstring) :
  endpoint_of_line cfg line = Some e ->
  exists host port rest,
    e = PROXY_TYPE cfg ++ js "://" ++ host ++ js ":" ++ port
    /\ (COLON ∉ host) /\ (COLON ∉ port)
    /\ after COLON line = Some rest
    /\ host = upto COLON line /\ port = upto COLON rest.
Proof.
  unfold endpoint_of_line. destruct (forallb _ _); [done|].
  destruct (after COLON line) as [rest|]; [|done].
  intros [= <-]. exists (upto COLON line), (upto COLON rest), rest.
  repeat split; apply upto_lacks_sep.
Qed.

End RefreshMore.

(** X6.  Every endpoint a refresh puts in the sequence has the shape
    [PROXY_TYPE://host:port] where neither [host] nor [port] contains a
    colon or a line feed; and the sequence has at most one endpoint per
    line of the body. *)
Theorem refreshed_endpoints_shape (cfg : Config) (body : jsstring)
    (pm : ProxyManager) :
  body <> [] ->
  Forall (fun e => exists host port,
            e = PROXY_TYPE cfg ++ js "://" ++ host ++ js ":" ++ port
            /\ (COLON ∉ host) /\ (COLON ∉ port) /\ (LF ∉ host) /\ (LF ∉ port))
    (proxies (refreshed cfg (fetched body) pm))
  /\ (length (proxies (refreshed cfg (fetched body) pm))
      <= length (split_on LF body))%nat.
Proof.
  intros Hne. rewrite refreshed_fetched by done. cbn [proxies set_proxies].
  split; [|apply length_omap_le].
  apply Forall_forall. intros e He.
  apply list_elem_of_omap in He as (line & Hline & He).
  destruct (endpoint_of_line_shape cfg line e He)
    as (host & port & rest & -> & Hh & Hp & Hrest & -> & ->).
  destruct (split_on_fields LF body line Hline) as [Hlf _].
  exists (upto COLON line), (upto COLON rest). repeat split; try done.
  - intros H. apply Hlf. by eapply upto_sub.
  - intros H. apply Hlf. eapply after_sub; [exact Hrest|]. by eapply upto_sub.
Qed.

(** X6 on the sample body. *)
Lemma refreshed_endpoints_shape_witness :
  (length (proxies (refreshed default_config (fetched sample_body)
                      new_ProxyManager))
   <= length (split_on LF sample_body))%nat.
Proof.
  apply (refreshed_endpoints_shape default_config sample_body new_ProxyManager).
  discriminate.
Defined.

(** X7.  A body that is accepted (status 200, not empty) but has no colon
    anywhere, such as an error page in plain words, empties the
    sequence: the proxies loaded before are gone and the next selection
    returns [null]. *)
Theorem refresh_without_colon_empties_pool (cfg : Config) (body : jsstring)
    (pm : ProxyManager) :
  body <> [] ->
  COLON ∉ body ->
  refreshed cfg (fetched body) pm = set_proxies [] pm
  /\ fst (getNextProxy (refreshed cfg (fetched body) pm)) = JNull.
Proof.
  intros Hne Hcolon. rewrite refreshed_fetched by done.
  assert (Hnone : omap (endpoint_of_line cfg) (split_on LF body) = []).
  { apply elem_of_nil_inv. intros e He.
    apply list_elem_of_omap in He as (line & Hline & He).
    destruct (endpoint_of_line_shape cfg line e He)
      as (host & port & rest & _ & _ & _ & Hrest & _).
    apply Hcolon. apply (split_on_fields LF body line Hline).
    by eapply after_Some_has_sep. }
  rewrite Hnone. split; reflexivity.
Qed.

(** X7 on a pool of two proxies and the body [Not Found]. *)
Lemma refresh_without_colon_empties_pool_witness :
  let pm := refreshed default_config (fetched sample_body) new_ProxyManager in
  length (proxies pm) = 2%nat
  /\ fst (getNextProxy (refreshed default_config (fetched (js "Not Found")) pm))
     = JNull.
Proof.
  intros pm. split; [reflexivity|].
  apply (refresh_without_colon_empties_pool default_config (js "Not Found") pm).
  - discriminate.
  - apply (bool_decide_unpack _). vm_compute. exact I.
Defined.

(** X8.  On a manager that has not selected yet, as after the refresh the
    constructor starts, the selections that follow a refresh return the
    endpoints of the list in the order of its lines, once each, and the
    manager is then back where it was, ready to start over. *)
Theorem selections_follow_list_order (cfg : Config) (body : jsstring)
    (pm : ProxyManager) :
  body <> [] ->
  index pm = 0%nat ->
  let endpoints := omap (endpoint_of_line cfg) (split_on LF body) in
  let loaded := refreshed cfg (fetched body) pm in
  rotate (length endpoints) loaded = (map JStr endpoints, loaded).
Proof.
  intros Hne Hidx endpoints loaded.
  assert (Hloaded : loaded = set_proxies endpoints pm)
    by (by apply refreshed_fetched).
  rewrite Hloaded. destruct endpoints as [|e rest] eqn:He; [reflexivity|].
  rewrite rotate_segment; cbn [proxies index set_proxies]; rewrite ?Hidx;
    cbn [length]; try lia.
  rewrite Nat.add_0_l, Nat.Div0.mod_same, drop_0.
  change (S (length rest)) with (length (e :: rest)). rewrite firstn_all.
  f_equal. unfold set_index, set_proxies. cbn. by rewrite Hidx.
Qed.

(** X8 on the sample body, loaded by the manager the constructor
    builds. *)
Lemma selections_follow_list_order_witness :
  let loaded := refreshed default_config (fetched sample_body)
                  new_ProxyManager in
  rotate 2 loaded =
  ([JStr (js "https://1.2.3.4:8080"); JStr (js "https://5.6.7.8:3128")], loaded).
Proof.
  intros loaded.
  apply (selections_follow_list_order default_config sample_body
           new_ProxyManager ltac:(discriminate) eq_refl).
Defined.

(** ** The plain-HTTP handler: headers and target *)

(** X9.  The headers sent upstream never carry [host], [connection] or
    [content-length]; they always carry [user-agent], [accept] and
    [accept-language], with the client's value when it sent a non-empty
    one and the default otherwise; every other header of the client goes
    through unchanged. *)
Theorem sanitize_headers_spec (cfg : Config) (h : Headers) :
  let h' := sanitize_headers cfg h in
  let chosen (name dflt : jsstring) :=
    match h !! name with
    | Some (c :: v) => Some (c :: v)
    | _ => Some dflt
    end in
  h' !! js "host" = None
  /\ h' !! js "connection" = None
  /\ h' !! js "content-length" = None
  /\ h' !! js "user-agent"
     = chosen (js "user-agent") (DEFAULT_USER_AGENT cfg)
  /\ h' !! js "accept"
     = chosen (js "accept")
         (js "text/html,application/xhtml+xml,application/xml;q=0.9,*/*;q=0.8")
  /\ h' !! js "accept-language"
     = chosen (js "accept-language") (js "en-US,en;q=0.5")
  /\ forall name,
       name ∉ [js "host"; js "connection"; js "content-length";
               js "user-agent"; js "accept"; js "accept-language"] ->
       h' !! name = h !! name.
Proof.
  intros h' chosen. subst h' chosen. unfold sanitize_headers, header_default.
  repeat split.
  - rewrite !lookup_insert_ne by names_differ.
    rewrite !lookup_delete_ne by names_differ. apply lookup_delete_eq.
  - rewrite !lookup_insert_ne by names_differ.
    rewrite lookup_delete_ne by names_differ. apply lookup_delete_eq.
  - rewrite !lookup_insert_ne by names_differ. apply lookup_delete_eq.
  - rewrite !lookup_insert_ne by names_differ. rewrite lookup_insert_eq.
    rewrite !lookup_delete_ne by names_differ.
    by destruct (h !! js "user-agent") as [[|c v]|].
  - rewrite lookup_insert_ne by names_differ. rewrite lookup_insert_eq.
    rewrite lookup_insert_ne by names_differ.
    rewrite !lookup_delete_ne by names_differ.
    by destruct (h !! js "accept") as [[|c v]|].
  - rewrite lookup_insert_eq. rewrite !lookup_insert_ne by names_differ.
    rewrite !lookup_delete_ne by names_differ.
    by destruct (h !! js "accept-language") as [[|c v]|].
  - intros name Hname.
    rewrite !lookup_insert_ne, !lookup_delete_ne; [done|..];
      intros <-; apply Hname; set_solver.
Qed.

(** X10.  A request line without a colon, such as an origin-form path, a
    target the URL parser rejects, and a target whose scheme is neither
    [http:] nor [https:] are all answered 400 with the plain-text
    explanation; no proxy is selected and the manager is not touched. *)
Theorem requestHandler_rejects_target (cfg : Config)
    (url_parser : jsstring -> option URL) (w : HttpWorld) (req : Request)
    (pm : ProxyManager) :
  COLON ∉ req_url req
  \/ url_parser (req_url req) = None
  \/ (exists u, url_parser (req_url req) = Some u
        /\ protocol u <> js "http:" /\ protocol u <> js "https:") ->
  requestHandler cfg url_parser w req pm =
  Some {| res := [WriteHead 400 {[ js "Content-Type" := js "text/plain" ]};
                  End (TextBody (js "Invalid or missing URL in request line"))];
          manager := pm; log := [] |}.
Proof.
  intros H. unfold requestHandler, requestHandler_fuel.
  replace (parse_target url_parser req) with
    (parse_target url_parser req ≫= fun _ => @Throw URL (TypeError ""))
    ; [by destruct (parse_target url_parser req)|].
  unfold parse_target, new_URL. cbn [to_jsstring].
  destruct (existsb (N.eqb COLON) (req_url req)) eqn:Hc.
  - destruct H as [H|[H|(u & H & Hp1 & Hp2)]].
    + exfalso. apply H. apply existsb_exists in Hc as (c & Hin & Hc).
      apply N.eqb_eq in Hc as <-. by apply list_elem_of_In.
    + by rewrite H.
    + rewrite H. cbn [mbind completion_bind]. unfold jsstr_eqb.
      by rewrite !bool_decide_eq_false_2.
  - reflexivity.
Qed.

(** X10 on the request line [GET /index.html]. *)
Lemma requestHandler_rejects_target_witness :
  let req := {| req_method := js "GET"; req_url := js "/index.html";
                req_headers := ∅ |} in
  exists h,
    requestHandler default_config sample_url_parser world_all_ok req sample_pool
      = Some h
    /\ manager h = sample_pool
    /\ List.filter is_WriteHead (res h)
       = [WriteHead 400 {[ js "Content-Type" := js "text/plain" ]}].
Proof.
  intros req. eexists. split.
  - apply requestHandler_rejects_target. left.
    apply (bool_decide_unpack _). vm_compute. exact I.
  - split; reflexivity.
Defined.

(** ** The plain-HTTP handler: a request that gets a response *)

Section HttpSuccess.

Variable cfg : Config.
Variable url_parser : jsstring -> option URL.

(** An agent can only be built for a proxy that is a non-empty string
    [new URL] accepts. *)
Lemma getTunnelAgent_Normal (targetUrl : jsstring) (c : jsval)
    (agent : option Agent) :
  getTunnelAgent cfg url_parser targetUrl c = Normal agent ->
  truthy c = true
  /\ exists ut up,
       new_URL url_parser (JStr targetUrl) = Normal ut
       /\ new_URL url_parser c = Normal up
       /\ agent =
          (if jsstr_eqb (protocol ut) (js "http:")
              || jsstr_eqb (protocol ut) (js "https:")
           then Some {| agent_kind := tunnel_kind_for cfg (protocol ut);
                        agent_host := hostname up;
                        agent_port := Number_of (port up);
                        agent_rejectUnauthorized :=
                          if jsstr_eqb (PROXY_TYPE cfg) (js "http")
                          then None else Some false |}
           else None).
Proof.
  unfold getTunnelAgent.
  destruct (new_URL url_parser (JStr targetUrl)) as [ut|] eqn:Hut; [|done].
  cbn [mbind completion_bind].
  destruct (new_URL url_parser c) as [up|] eqn:Hup; [|done].
  cbn [mbind completion_bind]. intros [= <-]. split.
  - unfold new_URL in Hup. destruct c as [| |[|x s]]; try done.
  - exists ut, up. repeat split. unfold tunnel_kind_for.
    destruct (jsstr_eqb (protocol ut) (js "http:"));
      destruct (jsstr_eqb (protocol ut) (js "https:"));
      destruct (jsstr_eqb (PROXY_TYPE cfg) (js "http")); reflexivity.
Qed.

Lemma not_in_bad_gateway (e : option JsError) : ~ In PipeBody (bad_gateway e).
Proof. unfold bad_gateway. cbn. intros [H|[H|[]]]; discriminate H. Qed.

Variable w : HttpWorld.
Variable req : Request.
Variable targetUrl : URL.
Variable headers : Headers.

(** A run that ends by piping a body: the attempt that got the response,
    its candidate, the options it gave to [axios], and what the handler
    did last. *)
Lemma retry_loop_success (fuel attempt : nat) (lastError : option JsError)
    (pm : ProxyManager) (lg : list LogEvent) (h : Handled) :
  retry_loop cfg url_parser w req targetUrl headers fuel attempt lastError pm lg
    = Some h ->
  In PipeBody (res h) ->
  exists i c agent response pm_before lg',
    (attempt <= i)%nat /\ Z.of_nat i < MAX_RETRIES cfg
    /\ getTunnelAgent cfg url_parser (href targetUrl) c = Normal agent
    /\ axios w i {| opt_method := req_method req; opt_url := href targetUrl;
                    opt_headers := headers; opt_timeout := 10000;
                    opt_agent := agent |} = Normal response
    /\ res h = [WriteHead (up_status response) (up_headers response); PipeBody]
    /\ manager h = setDomainForDomain (hostname targetUrl) c
                     (clock_settle w i) pm_before
    /\ log h = lg' ++ [LogHttpVia c i].
Proof.
  revert attempt lastError pm lg.
  induction fuel as [|fuel IH]; intros attempt lastError pm lg Hrun Hpipe;
    cbn [retry_loop] in Hrun;
    destruct (Z.ltb_spec (Z.of_nat attempt) (MAX_RETRIES cfg)) as [Hlt|Hge];
    try discriminate Hrun;
    try (injection Hrun as <-; by apply not_in_bad_gateway in Hpipe).
  destruct (select_candidate _ _ _ _ _) as [[c origin] pm1].
  destruct (getTunnelAgent _ _ _ _) as [agent|error] eqn:Hagent.
  - destruct (axios w attempt _) as [response|error] eqn:Hax.
    + injection Hrun as <-. exists attempt, c, agent, response. eexists. exists lg.
      repeat split; done || lia.
    + destruct (IH _ _ _ _ Hrun Hpipe)
        as (i & c' & a' & r' & pmb & lg' & Hi & Hrest).
      exists i, c', a', r', pmb, lg'. split; [lia|exact Hrest].
  - destruct (IH _ _ _ _ Hrun Hpipe)
      as (i & c' & a' & r' & pmb & lg' & Hi & Hrest).
    exists i, c', a', r', pmb, lg'. split; [lia|exact Hrest].
Qed.

End HttpSuccess.

(** X11.  When the handler relays a response, the proxy it went through
    is the one of its last log line, and it is recorded for the target's
    host name at the moment the response arrived: until that moment plus
    the TTL, the first attempt of a request to the same host takes that
    proxy from the cache and leaves the rotation alone. *)
Theorem success_records_affinity (cfg : Config)
    (url_parser : jsstring -> option URL) (w : HttpWorld) (req : Request)
    (pm : ProxyManager) (targetUrl : URL) (h : Handled) :
  parse_target url_parser req = Normal targetUrl ->
  requestHandler cfg url_parser w req pm = Some h ->
  In PipeBody (res h) ->
  exists i c,
    last (log h) = Some (LogHttpVia c i)
    /\ domainCache (manager h) !! hostname targetUrl
       = Some {| proxy := c; timestamp := clock_settle w i |}
    /\ forall t,
         t < clock_settle w i + PROXY_DOMAIN_CACHE_TTL cfg ->
         select_candidate cfg 0 (hostname targetUrl) t (manager h)
         = (c, FromAffinity, manager h).
Proof.
  intros Hurl Hrun Hpipe. unfold requestHandler, requestHandler_fuel in Hrun.
  rewrite Hurl in Hrun.
  destruct (retry_loop_success _ _ _ _ _ _ _ _ _ _ _ _ Hrun Hpipe)
    as (i & c & agent & response & pmb & lg' & _ & _ & Hagent & _ & _ & Hm & Hlog).
  exists i, c. rewrite Hlog, Hm, last_snoc.
  split; [done|]. split; [apply lookup_insert_eq|].
  intros t Ht. apply getTunnelAgent_Normal in Hagent as [Htruthy _].
  unfold select_candidate, getProxyForDomain, setDomainForDomain.
  cbn [Nat.eqb domainCache set_domainCache]. rewrite lookup_insert_eq.
  cbn [timestamp proxy].
  destruct (Z.ltb_spec (t - clock_settle w i) (PROXY_DOMAIN_CACHE_TTL cfg));
    [|lia].
  by rewrite Htruthy.
Qed.

(** X11 for [GET http://example.com/] through the sample pool when the
    first proxy answers. *)
Lemma success_records_affinity_witness :
  exists h,
    requestHandler default_config sample_url_parser world_all_ok
      sample_request sample_pool = Some h
    /\ exists i c,
         last (log h) = Some (LogHttpVia c i)
         /\ domainCache (manager h) !! js "example.com"
            = Some {| proxy := c; timestamp := clock_settle world_all_ok i |}
         /\ forall t,
              t < clock_settle world_all_ok i + 600000 ->
              select_candidate default_config 0 (js "example.com") t (manager h)
              = (c, FromAffinity, manager h).
Proof.
  eexists. split; [vm_compute; reflexivity|].
  eapply (success_records_affinity default_config sample_url_parser
            world_all_ok sample_request sample_pool sample_target).
  - vm_compute. reflexivity.
  - vm_compute. reflexivity.
  - cbn. right. left. reflexivity.
Defined.

(** X12.  The request that got the response was issued with the method of
    the client request, the target's href, the sanitized headers, a
    timeout of 10000 ms, and an agent: one that dials the host and port
    of the candidate's URL, is of the kind fixed by the target's protocol
    and the proxy type, and switches certificate checks off exactly when
    the proxy type is not [http]. *)
Theorem successful_request_options (cfg : Config)
    (url_parser : jsstring -> option URL) (w : HttpWorld) (req : Request)
    (pm : ProxyManager) (targetUrl : URL) (h : Handled) :
  parse_target url_parser req = Normal targetUrl ->
  new_URL url_parser (JStr (href targetUrl)) = Normal targetUrl ->
  requestHandler cfg url_parser w req pm = Some h ->
  In PipeBody (res h) ->
  exists i c up response,
    last (log h) = Some (LogHttpVia c i)
    /\ new_URL url_parser c = Normal up
    /\ axios w i
         {| opt_method := req_method req; opt_url := href targetUrl;
            opt_headers := sanitize_headers cfg (req_headers req);
            opt_timeout := 10000;
            opt_agent :=
              Some {| agent_kind := tunnel_kind_for cfg (protocol targetUrl);
                      agent_host := hostname up;
                      agent_port := Number_of (port up);
                      agent_rejectUnauthorized :=
                        if jsstr_eqb (PROXY_TYPE cfg) (js "http")
                        then None else Some false |} |}
       = Normal response
    /\ res h = [WriteHead (up_status response) (up_headers response); PipeBody].
Proof.
  intros Hurl Hhref Hrun Hpipe.
  unfold requestHandler, requestHandler_fuel in Hrun. rewrite Hurl in Hrun.
  destruct (retry_loop_success _ _ _ _ _ _ _ _ _ _ _ _ Hrun Hpipe)
    as (i & c & agent & response & pmb & lg' & _ & _ & Hagent & Hax & Hres & _ & Hlog).
  apply getTunnelAgent_Normal in Hagent as (_ & ut & up & Hut & Hup & ->).
  rewrite Hhref in Hut. injection Hut as <-.
  assert (Hproto : jsstr_eqb (protocol targetUrl) (js "http:")
                   || jsstr_eqb (protocol targetUrl) (js "https:") = true).
  { unfold parse_target in Hurl.
    destruct (new_URL url_parser (JStr (req_url req))) as [u|]; [|done].
    cbn [mbind completion_bind] in Hurl.
    destruct (jsstr_eqb (protocol u) (js "http:")
              || jsstr_eqb (protocol u) (js "https:")) eqn:Hp; [|done].
    cbn [negb] in Hurl. by injection Hurl as <-. }
  rewrite Hproto in Hax.
  exists i, c, up, response. rewrite Hlog, last_snoc. done.
Qed.

(** X12 for [GET http://example.com/] through the sample pool when the
    first proxy answers. *)
Lemma successful_request_options_witness :
  exists h,
    requestHandler default_config sample_url_parser world_all_ok
      sample_request sample_pool = Some h
    /\ exists i c up response,
         last (log h) = Some (LogHttpVia c i)
         /\ new_URL sample_url_parser c = Normal up
         /\ axios world_all_ok i
              {| opt_method := js "GET"; opt_url := js "http://example.com/";
                 opt_headers := sanitize_headers default_config ∅;
                 opt_timeout := 10000;
                 opt_agent :=
                   Some {| agent_kind := httpOverHttps;
                           agent_host := hostname up;
                           agent_port := Number_of (port up);
                           agent_rejectUnauthorized := Some false |} |}
            = Normal response
         /\ res h = [WriteHead (up_status response) (up_headers response);
                     PipeBody].
Proof.
  eexists. split; [vm_compute; reflexivity|].
  eapply (successful_request_options default_config sample_url_parser
            world_all_ok sample_request sample_pool sample_target).
  - vm_compute. reflexivity.
  - vm_compute. reflexivity.
  - vm_compute. reflexivity.
  - cbn. right. left. reflexivity.
Defined.

(** ** The plain-HTTP handler: what it leaves alone *)

Section HttpFrame.

Variable cfg : Config.
Variable url_parser : jsstring -> option URL.

Lemma same_but_refl (d : jsstring) (pm : ProxyManager) : same_but d pm pm.
Proof. by split. Qed.

Lemma same_but_trans (d : jsstring) (a b c : ProxyManager) :
  same_but d a b -> same_but d b c -> same_but d a c.
Proof.
  intros [H1 H2] [H3 H4]. split; [congruence|].
  intros other Hother. rewrite H4, H2; done.
Qed.

Lemma getProxyForDomain_same_but (d : jsstring) (now : Z) (pm : ProxyManager) :
  same_but d pm (snd (getProxyForDomain cfg d now pm)).
Proof.
  unfold getProxyForDomain.
  destruct (domainCache pm !! d) as [m|]; [destruct (_ <? _)|];
    split; cbn; try done; intros other Hother; by apply lookup_delete_ne.
Qed.

Lemma getNextProxy_same_but (d : jsstring) (pm : ProxyManager) :
  same_but d pm (snd (getNextProxy pm)).
Proof. unfold getNextProxy. by destruct (_ =? _)%nat. Qed.

Lemma select_candidate_same_but (attempt : nat) (d : jsstring) (now : Z)
    (pm : ProxyManager) :
  same_but d pm (snd (select_candidate cfg attempt d now pm)).
Proof.
  unfold select_candidate. destruct (attempt =? 0)%nat.
  - pose proof (getProxyForDomain_same_but d now pm) as H1.
    destruct (getProxyForDomain cfg d now pm) as [cached pm1].
    destruct (truthy cached); [exact H1|].
    pose proof (getNextProxy_same_but d pm1) as H2.
    destruct (getNextProxy pm1) as [next pm2].
    by eapply same_but_trans.
  - pose proof (getNextProxy_same_but d pm) as H2.
    by destruct (getNextProxy pm) as [next pm2].
Qed.

Lemma forget_failed_same_but (attempt : nat) (d : jsstring) (c : jsval)
    (now : Z) (pm : ProxyManager) :
  same_but d pm (forget_failed cfg attempt d c now pm).
Proof.
  unfold forget_failed. destruct (attempt =? 0)%nat; [|apply same_but_refl].
  pose proof (getProxyForDomain_same_but d now pm) as H1.
  destruct (getProxyForDomain cfg d now pm) as [current pm1].
  destruct (strict_eq current c); [|exact H1].
  eapply same_but_trans; [exact H1|].
  split; cbn; [done|]. intros other Hother. by apply lookup_delete_ne.
Qed.

Lemma retry_loop_same_but (w : HttpWorld) (req : Request) (targetUrl : URL)
    (headers : Headers) (fuel attempt : nat) (lastError : option JsError)
    (pm : ProxyManager) (lg : list LogEvent) (h : Handled) :
  (forall i m, meanwhile w i m = m) ->
  retry_loop cfg url_parser w req targetUrl headers fuel attempt lastError pm lg
    = Some h ->
  same_but (hostname targetUrl) pm (manager h).
Proof.
  intros Hquiet. revert attempt lastError pm lg.
  induction fuel as [|fuel IH]; intros attempt lastError pm lg Hrun;
    cbn [retry_loop] in Hrun;
    destruct (Z.ltb_spec (Z.of_nat attempt) (MAX_RETRIES cfg)) as [Hlt|Hge];
    try discriminate Hrun;
    try (injection Hrun as <-; apply same_but_refl).
  pose proof (select_candidate_same_but attempt (hostname targetUrl)
                (clock_select w attempt) pm) as Hsel.
  destruct (select_candidate _ _ _ _ _) as [[c origin] pm1].
  cbn [snd] in Hsel. rewrite Hquiet in Hrun.
  destruct (getTunnelAgent _ _ _ _) as [agent|error].
  - destruct (axios w attempt _) as [response|error].
    + injection Hrun as <-. cbn [manager].
      eapply same_but_trans; [exact Hsel|].
      split; cbn; [done|]. intros other Hother. by apply lookup_insert_ne.
    + eapply same_but_trans; [exact Hsel|].
      eapply same_but_trans; [apply forget_failed_same_but|].
      eapply IH. exact Hrun.
  - eapply same_but_trans; [exact Hsel|].
    eapply same_but_trans; [apply forget_failed_same_but|].
    eapply IH. exact Hrun.
Qed.

End HttpFrame.

(** X13.  While nothing else touches the manager, a request leaves the
    proxy sequence as it was (it can only move the cursor) and changes
    no affinity entry other than the one of its own target host. *)
Theorem requestHandler_touches_own_domain_only (cfg : Config)
    (url_parser : jsstring -> option URL) (w : HttpWorld) (req : Request)
    (pm : ProxyManager) (targetUrl : URL) (h : Handled) :
  (forall i m, meanwhile w i m = m) ->
  parse_target url_parser req = Normal targetUrl ->
  requestHandler cfg url_parser w req pm = Some h ->
  proxies (manager h) = proxies pm
  /\ forall other, other <> hostname targetUrl ->
       domainCache (manager h) !! other = domainCache pm !! other.
Proof.
  intros Hquiet Hurl Hrun. unfold requestHandler, requestHandler_fuel in Hrun.
  rewrite Hurl in Hrun.
  exact (retry_loop_same_but cfg url_parser _ _ _ _ _ _ _ _ _ _ Hquiet Hrun).
Qed.

(** X13 for a request to [example.com] that fails on every attempt while
    the cache holds an entry of [example.org]. *)
Lemma requestHandler_touches_own_domain_only_witness :
  let pm := setDomainForDomain (js "example.org")
              (JStr (js "https://5.6.7.8:3128")) 900 sample_pool in
  exists h,
    requestHandler default_config sample_url_parser world_all_fail
      sample_request pm = Some h
    /\ proxies (manager h) = proxies pm
    /\ domainCache (manager h) !! js "example.org"
       = Some {| proxy := JStr (js "https://5.6.7.8:3128"); timestamp := 900 |}.
Proof.
  intros pm. eexists. split; [vm_compute; reflexivity|].
  edestruct (requestHandler_touches_own_domain_only default_config
               sample_url_parser world_all_fail sample_request pm sample_target)
    as [Hp Hc].
  - intros i m. reflexivity.
  - vm_compute. reflexivity.
  - vm_compute. reflexivity.
  - split; [exact Hp|]. rewrite Hc; [reflexivity|discriminate].
Defined.

(** ** The CONNECT handler: an accepted handshake and the relay *)

(** X14.  With attempts configured and a pool that can serve the
    selection, when the proxy of the first attempt connects and its first
    chunk carries [200]: the proxy socket has received the CONNECT
    request followed by the bytes already read from the client, if any;
    the client socket has received the success line and nothing else and
    stays open; no second socket was opened; and the proxy is recorded
    for the target host with the time of the reply. *)
Theorem connect_accepted (cfg : Config) (url_parser : jsstring -> option URL)
    (net_isIP : jsstring -> Z) (req_url head : jsstring) (now now1 now2 : Z)
    (pm : ProxyManager) (chunk : jsstring) :
  0 < MAX_RETRIES cfg ->
  pool_ready url_parser pm = true ->
  affinity_ready cfg url_parser (domain req_url) now pm = true ->
  includes (js "200") chunk = true ->
  exists t s,
    (t0 ← serverOnConnect cfg url_parser net_isIP req_url now pm;
     deliver cfg url_parser net_isIP req_url head
       [(now1, ProxyConnected 0%nat); (now2, ProxyData 0%nat chunk)] t0)
    = Normal t
    /\ t_sockets t = [s]
    /\ ps_written s
       = connectRequest req_url :: (if (0 <? length head)%nat then [head] else [])
    /\ ps_destroyed s = false
    /\ ps_piped s = true
    /\ ps_once_data s = false
    /\ t_client t
       = {| cs_written := [line_200]; cs_ended := false; cs_destroyed := false;
            cs_on_error := [GuardClient; TearDownProxy 0];
            cs_piped_to := [0%nat] |}
    /\ domainCache (t_manager t) !! domain req_url
       = Some {| proxy := ps_proxyUrl s; timestamp := now2 |}.
Proof.
  intros Hmax Hpool Haff H200. unfold serverOnConnect.
  edestruct (attemptConnect_dials cfg url_parser net_isIP req_url 0 now)
    as (c & pm1 & u & lg & -> & _); [cbn; lia|exact Hpool|intros _; exact Haff|].
  cbn [mbind completion_bind t_sockets t_client t_manager app deliver dispatch
       lookup list_lookup dialled ps_destroyed ps_once_data].
  unfold on_first_data. rewrite H200.
  unfold with_manager, with_client, with_socket, setDomainForDomain.
  destruct (0 <? length head)%nat;
    (eexists; eexists; split; [reflexivity|]);
    cbn [t_sockets t_client t_manager domainCache set_domainCache];
    rewrite lookup_insert_eq; cbn; repeat split; done.
Qed.

(** X14 for [CONNECT example.com:443] through the sample pool. *)
Lemma connect_accepted_witness :
  exists t s,
    (t0 ← serverOnConnect default_config sample_url_parser sample_isIP
            (js "example.com:443") 1000 sample_pool;
     deliver default_config sample_url_parser sample_isIP
       (js "example.com:443") []
       [(1001, ProxyConnected 0%nat); (1002, ProxyData 0%nat line_200)] t0)
    = Normal t
    /\ t_sockets t = [s]
    /\ ps_written s = [connectRequest (js "example.com:443")]
    /\ cs_written (t_client t) = [line_200]
    /\ domainCache (t_manager t) !! js "example.com"
       = Some {| proxy := JStr (js "https://1.2.3.4:8080"); timestamp := 1002 |}.
Proof.
  destruct (connect_accepted default_config sample_url_parser sample_isIP
              (js "example.com:443") [] 1000 1001 1002 sample_pool line_200)
    as (t & s & Hrun & Hs & Hw & _ & _ & _ & Hc & Hcache).
  - reflexivity.
  - vm_compute. reflexivity.
  - vm_compute. reflexivity.
  - vm_compute. reflexivity.
  - exists t, s. split; [exact Hrun|]. split; [exact Hs|]. split; [exact Hw|].
    split; [by rewrite Hc|].
    transitivity (Some {| proxy := ps_proxyUrl s; timestamp := 1002 |});
      [exact Hcache|].
    f_equal. f_equal.
    vm_compute in Hrun. injection Hrun as <-.
    injection Hs as <-. reflexivity.
Defined.





(** ** The CONNECT handler: attempts that fail in any way *)

Section FailureFacts.

Variable cfg : Config.
Variable url_parser : jsstring -> option URL.
Variable net_isIP : jsstring -> Z.
Variable req_url : jsstring.
Variable head : jsstring.



End FailureFacts.



(** ** The CONNECT handler: broken pipes and the affinity key *)

Section QuietFacts.

Variable cfg : Config.
Variable url_parser : jsstring -> option URL.
Variable net_isIP : jsstring -> Z.
Variable req_url : jsstring.
Variable head : jsstring.

Let socket_errors (t : Tunnel) : list LogEvent :=
  List.filter is_socket_error_log (t_log t).

Lemma attemptConnect_socket_errors (attempt : nat) (now : Z) (t t' : Tunnel) :
  attemptConnect cfg url_parser net_isIP req_url attempt now t = Normal t' ->
  socket_errors t' = socket_errors t.
Proof.
  unfold attemptConnect, socket_errors. destruct (_ <=? _).
  - by intros [= <-].
  - destruct (select_candidate _ _ _ _ _) as [[c o] pm1].
    destruct (new_URL url_parser c) as [u|]; [|done].
    cbn [mbind completion_bind]. intros [= <-]. cbn [t_log open_socket logger].
    rewrite List.filter_app. cbn. by rewrite app_nil_r.
Qed.

Lemma emit_proxy_error_quiet (i : nat) (s : ProxySocket) (err : JsError)
    (now : Z) (ls : list ProxyErrorListener) (t t' : Tunnel) :
  err_code err = js "EPIPE" ->
  emit_proxy_error cfg url_parser net_isIP req_url i s err now ls t = Normal t' ->
  socket_errors t' = socket_errors t.
Proof.
  intros Hcode. revert t. induction ls as [|l ls IH]; intros t;
    cbn [emit_proxy_error]; [by intros [= <-]|].
  destruct (run_proxy_listener _ _ _ _ _ _ _ _ _ t) as [t1|] eqn:Hl; [|done].
  cbn [mbind completion_bind]. intros Hrest. rewrite (IH _ Hrest).
  destruct l; cbn [run_proxy_listener] in Hl;
    unfold logger_unless_EPIPE, jsstr_eqb in Hl;
    rewrite bool_decide_eq_true_2 in Hl by done.
  - by apply attemptConnect_socket_errors in Hl.
  - by injection Hl as <-.
Qed.

Lemma client_listeners_quiet (err : JsError) (ls : list ClientErrorListener)
    (t : Tunnel) :
  err_code err = js "EPIPE" ->
  socket_errors (fold_left (fun t' l => run_client_listener err l t') ls t)
  = socket_errors t.
Proof.
  intros Hcode. revert t. induction ls as [|l ls IH]; intros t; [done|].
  cbn [fold_left]. rewrite IH.
  destruct l; cbn [run_client_listener];
    unfold logger_unless_EPIPE, jsstr_eqb;
    by rewrite bool_decide_eq_true_2.
Qed.

(** The affinity key of a CONNECT target is what stands before its first
    colon. *)
Lemma domain_of_host_port (host rest : jsstring) :
  COLON ∉ host -> domain (host ++ COLON :: rest) = host.
Proof.
  intros Hhost. unfold domain. rewrite split_on_upto_after.
  cbn [array_get lookup list_lookup to_jsstring]. by apply upto_app_sep.
Qed.

End QuietFacts.

(** X17.  A socket error whose code is [EPIPE], on the client socket or
    on a proxy socket, in any state of the connection and whatever
    listeners are registered, adds no socket-error line to the log. *)
Theorem EPIPE_is_not_logged (cfg : Config) (url_parser : jsstring -> option URL)
    (net_isIP : jsstring -> Z) (req_url head : jsstring) (now : Z)
    (ev : SocketEvent) (err : JsError) (t t' : Tunnel) :
  err_code err = js "EPIPE" ->
  ev = ClientError err \/ (exists i, ev = ProxyError i err) ->
  dispatch cfg url_parser net_isIP req_url head now ev t = Normal t' ->
  List.filter is_socket_error_log (t_log t')
  = List.filter is_socket_error_log (t_log t).
Proof.
  intros Hcode [->|[i ->]]; cbn [dispatch].
  - destruct (cs_destroyed (t_client t)); intros [= <-]; [done|].
    by rewrite (client_listeners_quiet err).
  - destruct (t_sockets t !! i) as [s|]; [|by intros [= <-]].
    destruct (ps_destroyed s); [by intros [= <-]|].
    intros Hemit.
    by rewrite (emit_proxy_error_quiet cfg url_parser net_isIP req_url i s err
                  now _ _ _ Hcode Hemit).
Qed.

(** X17 on an established tunnel whose proxy socket reports a broken
    pipe. *)
Lemma EPIPE_is_not_logged_witness :
  exists t',
    dispatch default_config sample_url_parser sample_isIP
      (js "example.com:443") [] 1003 (ProxyError 0%nat EPIPE) sample_tunnel_up
    = Normal t'
    /\ List.filter is_socket_error_log (t_log t')
       = List.filter is_socket_error_log (t_log sample_tunnel_up).
Proof.
  eexists. split; [vm_compute; reflexivity|].
  lazymatch goal with
  | |- List.filter _ (t_log ?T') = _ =>
      apply (EPIPE_is_not_logged default_config sample_url_parser sample_isIP
               (js "example.com:443") [] 1003 (ProxyError 0%nat EPIPE) EPIPE
               sample_tunnel_up T' eq_refl
               (or_intror (ex_intro _ 0%nat eq_refl)))
  end.
  vm_compute. reflexivity.
Defined.

(** X18.  The affinity key of a CONNECT request is the host without the
    port.  A proxy recorded by a tunnel to one port of a host is what
    the first attempt of a tunnel to any other port of that host
    selects, until the entry expires. *)
Theorem tunnels_to_one_host_share_affinity (cfg : Config)
    (host port1 port2 : jsstring) (c : jsval) (T t : Z) (pm : ProxyManager) :
  COLON ∉ host ->
  truthy c = true ->
  t < T + PROXY_DOMAIN_CACHE_TTL cfg ->
  let recorded :=
    setDomainForDomain (domain (host ++ COLON :: port1)) c T pm in
  domain (host ++ COLON :: port1) = host
  /\ domain (host ++ COLON :: port2) = host
  /\ select_candidate cfg 0 (domain (host ++ COLON :: port2)) t recorded
     = (c, FromAffinity, recorded).
Proof.
  intros Hhost Htruthy Ht recorded. subst recorded.
  rewrite !domain_of_host_port by done. repeat split.
  unfold select_candidate, getProxyForDomain, setDomainForDomain.
  cbn [Nat.eqb domainCache set_domainCache]. rewrite lookup_insert_eq.
  cbn [timestamp proxy].
  destruct (Z.ltb_spec (t - T) (PROXY_DOMAIN_CACHE_TTL cfg)); [|lia].
  by rewrite Htruthy.
Qed.

(** X18 for tunnels to ports 443 and 8443 of [example.com]. *)
Lemma tunnels_to_one_host_share_affinity_witness :
  let recorded :=
    setDomainForDomain (domain (js "example.com:443"))
      (JStr (js "https://1.2.3.4:8080")) 1002 sample_pool in
  select_candidate default_config 0 (domain (js "example.com:8443")) 5000
    recorded
  = (JStr (js "https://1.2.3.4:8080"), FromAffinity, recorded).
Proof.
  intros recorded.
  apply (tunnels_to_one_host_share_affinity default_config (js "example.com")
           (js "443") (js "8443") (JStr (js "https://1.2.3.4:8080")) 1002 5000
           sample_pool).
  - apply (bool_decide_unpack _). vm_compute. exact I.
  - reflexivity.
  - simpl. lia.
Defined.

(** X24.  On a tunnel that is up, an error of the client socket destroys
    the client socket and the proxy socket and does nothing else: no
    socket is opened, nothing more is written to either socket, and the
    manager, with the affinity entry the tunnel recorded, stays as it
    was. *)
Theorem client_error_ends_tunnel (cfg : Config)
    (url_parser : jsstring -> option URL) (net_isIP : jsstring -> Z)
    (req_url head : jsstring) (now : Z) (t : Tunnel) (i : nat)
    (s : ProxySocket) (err : JsError) :
  t_sockets t !! i = Some s ->
  cs_destroyed (t_client t) = false ->
  cs_on_error (t_client t) = [GuardClient; TearDownProxy i] ->
  exists t',
    dispatch cfg url_parser net_isIP req_url head now (ClientError err) t
      = Normal t'
    /\ cs_destroyed (t_client t') = true
    /\ cs_written (t_client t') = cs_written (t_client t)
    /\ t_sockets t' = <[i := ps_destroy s]> (t_sockets t)
    /\ t_manager t' = t_manager t.
Proof.
  intros Hs Hlive Hls. unfold dispatch. rewrite Hlive, Hls.
  eexists. split; [reflexivity|].
  cbn [fold_left run_client_listener]. unfold logger_unless_EPIPE.
  destruct (jsstr_eqb _ _); cbn; repeat split;
    apply list_eq; intros j; destruct (decide (i = j)) as [<-|Hne];
    rewrite ?list_lookup_alter_eq, ?list_lookup_alter_ne by done;
    rewrite ?list_lookup_insert_eq, ?list_lookup_insert_ne
      by (done || by eapply lookup_lt_Some);
    rewrite ?Hs; done.
Qed.

(** X24 on the tunnel of [CONNECT example.com:443], once the first proxy
    has accepted it. *)
Lemma client_error_ends_tunnel_witness :
  exists t',
    dispatch default_config sample_url_parser sample_isIP
      (js "example.com:443") [] 1003 (ClientError ECONNRESET) sample_tunnel_up
    = Normal t'
    /\ cs_destroyed (t_client t') = true
    /\ length (t_sockets t') = 1%nat
    /\ t_manager t' = t_manager sample_tunnel_up.
Proof.
  edestruct (client_error_ends_tunnel default_config sample_url_parser
               sample_isIP (js "example.com:443") [] 1003 sample_tunnel_up
               0%nat) with (err := ECONNRESET)
    as (t' & Hrun & Hc & _ & Hsocks & Hm).
  - vm_compute. reflexivity.
  - vm_compute. reflexivity.
  - vm_compute. reflexivity.
  - exists t'. split; [exact Hrun|]. split; [exact Hc|].
    split; [by rewrite Hsocks|exact Hm].
Defined.

(** ** The earlier revision: request handler *)

Section LegacyHttp.

Variable cfg : Config.
Variable url_parser : jsstring -> option URL.
Variable w : HttpWorld.
Variable req : Request.
Variable targetUrl : URL.
Variable headers : Headers.



End LegacyHttp.

(** X19.  In the earlier revision, a request with a valid target that
    finds the cursor outside the sequence, because the pool is empty or
    because a refresh shrank it, is answered at once with 500 and the
    JSON body [{error: 'No proxies available'}]: nothing is logged, no
    upstream request is made, and only the cursor may have moved. *)
Theorem legacy_no_proxy_500 (cfg : Config)
    (url_parser : jsstring -> option URL) (w : HttpWorld) (req : Request)
    (pm : ProxyManager) (targetUrl : URL) :
  parse_target url_parser req = Normal targetUrl ->
  0 < MAX_RETRIES cfg ->
  (length (proxies pm) <= index pm)%nat ->
  Legacy.requestHandler cfg url_parser w req pm =
  Some {| Legacy.res := Legacy.no_proxies;
          Legacy.manager := snd (getNextProxy pm);
          Legacy.log := [] |}
  /\ proxies (snd (getNextProxy pm)) = proxies pm.
Proof.
  intros Hurl Hmax Hout. unfold Legacy.requestHandler. rewrite Hurl.
  destruct (Z.to_nat (MAX_RETRIES cfg)) as [|fuel] eqn:Hfuel; [lia|].
  cbn [Legacy.retry_loop].
  destruct (Z.ltb_spec (Z.of_nat 0) (MAX_RETRIES cfg)); [|lia].
  assert (Hfalsy : truthy (fst (getNextProxy pm)) = false).
  { unfold getNextProxy, array_get.
    destruct (length (proxies pm) =? 0)%nat; [done|].
    by rewrite lookup_ge_None_2. }
  assert (Hsame : proxies (snd (getNextProxy pm)) = proxies pm)
    by (unfold getNextProxy; by destruct (_ =? _)%nat).
  destruct (getNextProxy pm) as [proxyUrl pm1]. cbn [fst snd] in *.
  by rewrite Hfalsy.
Qed.

(** X19 on the manager as the constructor leaves it and on the pool a
    shrinking refresh left with a stale cursor. *)
Lemma legacy_no_proxy_500_witness :
  (Legacy.res <$> Legacy.requestHandler Legacy.default_config sample_url_parser
                    world_all_ok sample_request new_ProxyManager)
  = Some Legacy.no_proxies
  /\ (Legacy.res <$> Legacy.requestHandler Legacy.default_config
                       sample_url_parser world_all_ok sample_request
                       pool_after_shrinking_refresh)
     = Some Legacy.no_proxies.
Proof.
  split.
  - rewrite (proj1 (legacy_no_proxy_500 Legacy.default_config sample_url_parser
                      world_all_ok sample_request new_ProxyManager sample_target
                      ltac:(vm_compute; reflexivity) ltac:(reflexivity)
                      ltac:(simpl; lia))).
    reflexivity.
  - rewrite (proj1 (legacy_no_proxy_500 Legacy.default_config sample_url_parser
                      world_all_ok sample_request pool_after_shrinking_refresh
                      sample_target
                      ltac:(vm_compute; reflexivity) ltac:(reflexivity)
                      ltac:(vm_compute; lia))).
    reflexivity.
Defined.


(** ** The earlier revision: CONNECT *)

(** X21.  In the earlier revision, a CONNECT request that finds the
    cursor outside the sequence gets the line
    [HTTP/1.1 500 No proxies available] and its socket is ended; the
    listener returns normally, opens no proxy socket, and later events
    change nothing. *)
Theorem legacy_connect_no_proxy (cfg : Config)
    (url_parser : jsstring -> option URL) (net_isIP : jsstring -> Z)
    (req_url head : jsstring) (pm : ProxyManager)
    (events : list Legacy.SocketEvent) :
  (length (proxies pm) <= index pm)%nat ->
  exists t,
    Legacy.onConnect cfg url_parser net_isIP pm = Normal t
    /\ cs_written (Legacy.t_client t) = [Legacy.line_500]
    /\ cs_ended (Legacy.t_client t) = true
    /\ Legacy.t_socket t = None
    /\ Legacy.deliver req_url head events t = t.
Proof.
  intros Hout. unfold Legacy.onConnect.
  assert (Hfalsy : truthy (fst (getNextProxy pm)) = false).
  { unfold getNextProxy, array_get.
    destruct (length (proxies pm) =? 0)%nat; [done|].
    by rewrite lookup_ge_None_2. }
  destruct (getNextProxy pm) as [proxyUrl pm1]. cbn [fst] in Hfalsy.
  rewrite Hfalsy. cbn [negb]. eexists. split; [reflexivity|].
  repeat split. unfold Legacy.deliver.
  induction events as [|ev events IH]; [reflexivity|exact IH].
Qed.

(** X21 for [CONNECT example.com:443] on the manager as the constructor
    leaves it. *)
Lemma legacy_connect_no_proxy_witness :
  exists t,
    Legacy.onConnect Legacy.default_config sample_url_parser sample_isIP
      new_ProxyManager = Normal t
    /\ cs_written (Legacy.t_client t) = [Legacy.line_500]
    /\ cs_ended (Legacy.t_client t) = true.
Proof.
  destruct (legacy_connect_no_proxy Legacy.default_config sample_url_parser
              sample_isIP (js "example.com:443") [] new_ProxyManager [])
    as (t & Hrun & Hw & He & _).
  - simpl. lia.
  - exists t. repeat split; assumption.
Defined.



(** ** The browser extension *)

Lemma extension_onClick_flag (state : Extension.Chrome * Extension.Popup) :
  Extension.proxyActive (fst (Extension.onClick state))
  = Some (negb (Extension.stored_active (fst state))).
Proof.
  destruct state as [c ui]. cbn [Extension.onClick fst].
  unfold Extension.onMessage.
  by destruct (negb (Extension.stored_active c)).
Qed.

Lemma extension_click_flag (n : nat) (state : Extension.Chrome * Extension.Popup) :
  Extension.proxyActive (fst (Extension.clicks (S n) state))
  = Some (xorb (Extension.stored_active (fst state)) (Nat.even n)).
Proof.
  induction n as [|n IH]; cbn [Extension.clicks] in *;
    rewrite extension_onClick_flag.
  - cbn [Extension.clicks Nat.even]. by destruct (Extension.stored_active _).
  - unfold Extension.stored_active at 1. rewrite IH. cbn [default].
    rewrite Nat.even_succ, <- Nat.negb_even.
    by destruct (Extension.stored_active (fst state)), (Nat.even n).
Qed.

(** X23.  After any number of clicks, at least one, everything agrees
    with the stored flag, which has flipped once per click: the proxy
    settings are fixed to [http://localhost:3000] with [<local>]
    bypassed when the flag is on and [direct] when it is off, the popup
    shows the matching texts, and the button carries the red class and
    not the blue one when on, the blue and not the red when off, with
    its other classes untouched. *)
Theorem extension_clicks_agree (n : nat)
    (state : Extension.Chrome * Extension.Popup) :
  let '(c, ui) := Extension.clicks (S n) state in
  let active := xorb (Extension.stored_active (fst state)) (Nat.even n) in
  Extension.proxyActive c = Some active
  /\ Extension.settings c
     = Some (if active
             then Extension.fixed_servers
                    {| Extension.scheme := js "http";
                       Extension.host := js "localhost";
                       Extension.port := 3000 |} [js "<local>"]
             else Extension.direct)
  /\ Extension.toggleBtn_textContent ui
     = (if active then js "Disable Proxy" else js "Activate Proxy")
  /\ Extension.statusText_textContent ui
     = (if active then js "Proxy is active" else js "Proxy is off")
  /\ (js "bg-red-500" ∈ Extension.toggleBtn_classList ui <-> active = true)
  /\ (js "bg-blue-500" ∈ Extension.toggleBtn_classList ui <-> active = false)
  /\ forall class, class <> js "bg-red-500" -> class <> js "bg-blue-500" ->
       (class ∈ Extension.toggleBtn_classList ui
        <-> class ∈ Extension.toggleBtn_classList (snd state)).
Proof.
  pose proof (extension_click_flag n state) as Hflag.
  assert (Hne : js "bg-red-500" <> js "bg-blue-500") by names_differ.
  assert (Hothers : forall k class,
            class <> js "bg-red-500" -> class <> js "bg-blue-500" ->
            (class ∈ Extension.toggleBtn_classList
                       (snd (Extension.clicks k state))
             <-> class ∈ Extension.toggleBtn_classList (snd state))).
  { intros k class Hr Hb. induction k as [|k IHk]; [done|].
    cbn [Extension.clicks]. destruct (Extension.clicks k state) as [c0 ui0].
    cbn [snd Extension.onClick] in *. rewrite <- IHk.
    unfold Extension.updateUI.
    destruct (negb (Extension.stored_active c0));
      cbn [Extension.toggleBtn_classList];
      rewrite elem_of_union, elem_of_difference, !elem_of_singleton;
      tauto. }
  specialize (Hothers n). cbn [Extension.clicks] in *.
  rewrite extension_onClick_flag in Hflag.
  destruct (Extension.clicks n state) as [c0 ui0].
  cbn [Extension.onClick fst snd] in *.
  injection Hflag as Hflag. rewrite Hflag.
  unfold Extension.onMessage, Extension.updateUI.
  destruct (xorb (Extension.stored_active (fst state)) (Nat.even n));
    cbn; repeat split; try done;
    rewrite ?elem_of_union, ?elem_of_difference, ?elem_of_singleton;
    try rewrite <- Hothers by done; intuition congruence.
Qed.
